(** * Treadmill controller: command codec, telemetry decoding and the
      interval scheduler of [src/treadmill/controller.py]

    A shallow embedding of the class [TreadmillController] of
    [src/treadmill/controller.py], the one that is given a telemetry
    queue and has [start_workout].  The repository also holds an earlier
    variant of the class in [treadmill/controller.py]; it is embedded in
    [Module Legacy].  The coroutines of the class become functions of a
    small state-and-exception monad; the places where a coroutine is
    suspended ([await]) are explicit, and what other tasks and the BLE
    client do there is read from an [environment].

    Python values are modelled as follows.
    - [int]: [Z].
    - [bytearray] / [bytes]: [list byte].
    - [decimal.Decimal] (finite): a signed coefficient and a decimal
      exponent; arithmetic follows the default context (28 significant
      digits, round-half-even, [Overflow] trapped).
    - [float]: the kernel's binary64 numbers ([PrimFloat]).
    - [asyncio.Event]: a [bool].
    - [asyncio.Queue] (unbounded): a [list], oldest element first. *)

From Stdlib Require Import ZArith List Bool Lia QArith Qabs Qround.
From Stdlib.Strings Require Import Byte.
From Stdlib Require Import PrimFloat FloatOps SpecFloat Uint63.
Import ListNotations.

Local Open Scope Z_scope.

(* ================================================================== *)
(** ** Exceptions and results *)

(** The exceptions the modelled code can raise.  [OverflowError] comes
    from [int.to_bytes]; [DecimalOverflow] is [decimal.Overflow], trapped
    by the default context; [ClientError] is whatever the BLE client
    raises from [start_notify]. *)
Inductive exception : Type :=
| OverflowError
| DecimalOverflow
| ClientError.

Inductive outcome (A : Type) : Type :=
| Returned (a : A)
| Raised (e : exception).

Arguments Returned {A} a.
Arguments Raised {A} e.

(* ================================================================== *)
(** ** Python integers and byte strings *)

Module PyInt.

Definition byte_val (b : byte) : Z := Z.of_N (Byte.to_N b).

Definition byte_of (z : Z) : byte :=
  match Byte.of_N (Z.to_N z) with
  | Some b => b
  | None => x00
  end.

(** The [length] least significant base-256 digits, lowest first. *)
Fixpoint le_digits (length : nat) (n : Z) : list byte :=
  match length with
  | O => []
  | S k => byte_of (n mod 256) :: le_digits k (n / 256)
  end.

(** [n.to_bytes(length, byteorder="little")], unsigned: a negative [n]
    and an [n] that needs more than [length] bytes raise
    [OverflowError]. *)
Definition to_bytes (n : Z) (length : nat) : outcome (list byte) :=
  if n <? 0 then Raised OverflowError
  else if 256 ^ Z.of_nat length <=? n then Raised OverflowError
  else Returned (le_digits length n).

(** [int.from_bytes(bs, "little")], unsigned; the empty string is 0. *)
Fixpoint from_bytes (bs : list byte) : Z :=
  match bs with
  | [] => 0
  | b :: rest => byte_val b + 256 * from_bytes rest
  end.

(** [data[lo:hi]] for literal bounds [0 <= lo <= hi]: slicing never
    raises, it returns what lies inside the string. *)
Definition slice {A : Type} (lo hi : nat) (data : list A) : list A :=
  firstn (hi - lo) (skipn lo data).

(** [n / d] on [int]s (true division): both operands are converted to
    binary64 and divided with one correct rounding.  The conversion is
    exact for operands below [2^53]; the operands met here are below
    [2^16]. *)
Definition truediv (n d : Z) : float :=
  PrimFloat.div (PrimFloat.of_uint63 (Uint63.of_Z n))
                (PrimFloat.of_uint63 (Uint63.of_Z d)).

(** The rational number a finite binary64 value denotes. *)
Definition float_value (f : float) : option Q :=
  match Prim2SF f with
  | S754_zero _ => Some (0 # 1)%Q
  | S754_finite s m e =>
      let mag := if e <? 0 then (Z.pos m # Z.to_pos (2 ^ (- e)))%Q
                 else inject_Z (Z.pos m * 2 ^ e) in
      Some (if s then Qopp mag else mag)
  | S754_infinity _ => None
  | S754_nan => None
  end.

End PyInt.

(* ================================================================== *)
(** ** [decimal.Decimal] *)

Module PyDecimal.

(** A finite decimal: the number [coefficient * 10 ^ exponent]. *)
Record Decimal : Type := mkDecimal { coefficient : Z; exponent : Z }.

(** The default context. *)
Definition prec : Z := 28.
Definition Emax : Z := 999999.

(** The rational number a decimal denotes. *)
Definition value (d : Decimal) : Q :=
  if 0 <=? exponent d
  then inject_Z (coefficient d * 10 ^ exponent d)
  else (coefficient d # Z.to_pos (10 ^ (- exponent d)))%Q.

Fixpoint digits_fuel (fuel : nat) (n : Z) : Z :=
  match fuel with
  | O => 0
  | S f => if n <=? 0 then 0 else 1 + digits_fuel f (n / 10)
  end.

(** Number of decimal digits of [n > 0] (0 for [n <= 0]). *)
Definition ndigits (n : Z) : Z :=
  digits_fuel (S (Z.to_nat (Z.log2 n))) n.

(** [n / m] rounded to the nearest integer, ties to even
    ([ROUND_HALF_EVEN]), for [0 <= n] and [0 < m]. *)
Definition div_half_even (n m : Z) : Z :=
  let q := n / m in
  let r := n mod m in
  if 2 * r <? m then q
  else if m <? 2 * r then q + 1
  else if Z.even q then q else q + 1.

(** Rounding of a result to the context precision: a coefficient of at
    most [prec] digits is kept; a longer one loses its low digits,
    rounded half-even.  (When rounding carries into a 29th digit Python
    renormalises the coefficient to 28 digits; the number is the same.) *)
Definition fix_prec (d : Decimal) : Decimal :=
  let a := Z.abs (coefficient d) in
  if a <? 10 ^ prec then d
  else
    let drop := ndigits a - prec in
    mkDecimal (Z.sgn (coefficient d) * div_half_even a (10 ^ drop))
              (exponent d + drop).

(** [d * k] for a Python [int] [k]: [k] is converted exactly, the
    coefficients are multiplied, and the result is rounded to the
    context; a non-zero result whose adjusted exponent exceeds [Emax]
    raises [decimal.Overflow].  (Results below the context's [Emin] are
    rounded towards the subnormal range without an exception; such
    results are below 1 in magnitude before and after.) *)
Definition mul_int (d : Decimal) (k : Z) : outcome Decimal :=
  let r := fix_prec (mkDecimal (coefficient d * k) (exponent d)) in
  if (negb (coefficient r =? 0))
       && (Emax <? exponent r + ndigits (Z.abs (coefficient r)) - 1)
  then Raised DecimalOverflow
  else Returned r.

(** [int(d)]: truncation towards zero. *)
Definition to_int (d : Decimal) : Z :=
  if 0 <=? exponent d
  then coefficient d * 10 ^ exponent d
  else Z.quot (coefficient d) (10 ^ (- exponent d)).

End PyDecimal.

Import PyInt PyDecimal.

(* ================================================================== *)
(** ** The controller's state, its surroundings, and the monad *)

(** OpCodes *)
Definition SPEED_OP_CODE : byte := x02.
Definition START_OP_CODE : byte := x07.
Definition STOP_PAUSE_OP_CODE : byte := x08.

Definition STOP_HEX : byte := x01.
Definition PAUSE_HEX : byte := x02.

(** The dictionary built by [_notification_handler], one field per key. *)
Record metrics : Type := mkMetrics {
  speed : float;
  distance : Z;
  calories : Z;
  time : Z
}.

(** A call made on the controller by another task while this one is
    suspended.  Only its effect on the event is modelled; what that task
    writes belongs to its own run. *)
Inductive concurrent_call : Type :=
| OtherStop     (* [stop()]  *)
| OtherStart.   (* [start()] *)

(** What can be observed of a run. *)
Inductive event : Type :=
| WriteGatt (command : list byte) (acknowledged : bool)
    (* [client.write_gatt_char(control_point_uuid, command, response=True)];
       [acknowledged = false] when the call raised an [Exception] *)
| PrintFailed (command : list byte)
    (* [print(f"FAILED to write command '{command}'")] *)
| Sleep (seconds : Z)                      (* [asyncio.sleep(seconds)] *)
| StartNotify                              (* [client.start_notify(...)] *)
| PrintSubscribed                          (* [print("Subscribed ...")] *)
| Concurrent (c : concurrent_call).        (* a call by another task *)

(** The surroundings of a run.  Suspension points are numbered in the
    order the run passes them.  For the suspension numbered [k],
    [write_acknowledged k] tells whether the write awaited there succeeds
    or raises an [Exception] (a failure of the BLE client),
    [notify_started k] whether the [start_notify] awaited there succeeds,
    and [concurrent k] lists the calls other tasks make on the controller
    meanwhile, each with the time (seconds after the suspension began) at
    which it is made.  An [await] ended by an exception that is not an
    [Exception] ([asyncio.CancelledError] when the task is cancelled,
    [KeyboardInterrupt]) is not among these surroundings: the
    [except Exception] clause of [_write_command] does not catch one, and
    it would end the run without a message. *)
Record environment : Type := mkEnvironment {
  write_acknowledged : nat -> bool;
  notify_started : nat -> bool;
  concurrent : nat -> list (Z * concurrent_call)
}.

(** [stop_event] and [telemetry_queue] are the attributes of the object;
    [now] counts the seconds spent in [asyncio.sleep], [suspensions] the
    suspension points passed, and [trace] is the timed log of events,
    oldest first. *)
Record state : Type := mkState {
  stop_event : bool;
  telemetry_queue : list metrics;
  now : Z;
  suspensions : nat;
  trace : list (Z * event)
}.

(** [TreadmillController.__init__]: [asyncio.Event()] starts unset. *)
Definition init (telemetry_queue : list metrics) : state :=
  mkState false telemetry_queue 0 0 [].

Definition M (A : Type) : Type := state -> outcome A * state.

Definition ret {A : Type} (a : A) : M A := fun st => (Returned a, st).

Definition bind {A B : Type} (m : M A) (k : A -> M B) : M B :=
  fun st =>
    match m st with
    | (Returned a, st') => k a st'
    | (Raised e, st') => (Raised e, st')
    end.

Definition lift {A : Type} (o : outcome A) : M A := fun st => (o, st).

Notation "x <- m ;; k" := (bind m (fun x => k))
  (at level 61, m at next level, right associativity).
Notation "m ;; k" := (bind m (fun _ => k))
  (at level 61, right associativity).

Definition set_flag (b : bool) : M unit :=
  fun st => (Returned tt,
             mkState b (telemetry_queue st) (now st) (suspensions st) (trace st)).

Definition log (e : event) : M unit :=
  fun st => (Returned tt,
             mkState (stop_event st) (telemetry_queue st) (now st)
                     (suspensions st) (trace st ++ [(now st, e)])).

Definition put (m : metrics) : M unit :=
  fun st => (Returned tt,
             mkState (stop_event st) (telemetry_queue st ++ [m]) (now st)
                     (suspensions st) (trace st)).

(** The trace entry of a call by another task made [fst oc] seconds
    into a suspension that began at time [t]. *)
Definition stamp (t : Z) (oc : Z * concurrent_call) : Z * event :=
  (t + fst oc, Concurrent (snd oc)).

(** The effect on this controller of such a call: [stop()] sets the
    event, [start()] clears it. *)
Definition interleave (st : state) (oc : Z * concurrent_call) : state :=
  mkState (match snd oc with OtherStop => true | OtherStart => false end)
          (telemetry_queue st) (now st) (suspensions st)
          (trace st ++ [stamp (now st) oc]).

(* ================================================================== *)
(** ** The codec: the pure parts of [set_speed] and of
       [_notification_handler] *)

(** Line 80 of [set_speed]: [int(speed_meters_per_sec * 100)]. *)
Definition target_speed_of (speed_meters_per_sec : Decimal) : outcome Z :=
  match mul_int speed_meters_per_sec 100 with
  | Raised e => Raised e
  | Returned scaled => Returned (to_int scaled)
  end.

(** Lines 80 to 83 of [set_speed]: the command bytes, or the exception
    raised while they are built. *)
Definition set_speed_command (speed_meters_per_sec : Decimal)
  : outcome (list byte) :=
  match target_speed_of speed_meters_per_sec with
  | Raised e => Raised e
  | Returned target_speed =>
      match to_bytes target_speed 2 with
      | Raised e => Raised e
      | Returned speed_bytes => Returned ([SPEED_OP_CODE] ++ speed_bytes)
      end
  end.

(** The dictionary built by [_notification_handler]. *)
Definition decode (data : list byte) : metrics :=
  {| speed := truediv (from_bytes (slice 2 4 data)) 100;
     distance := from_bytes (slice 4 11 data);
     calories := from_bytes (slice 11 13 data);
     time := from_bytes (slice 17 19 data) |}.

Section Controller.

Variable env : environment.

(** An [await] that suspends for [seconds] of sleeping time: the other
    tasks run, then the clock and the suspension counter advance. *)
Definition suspend (seconds : Z) : M unit :=
  fun st =>
    let st1 := fold_left interleave (concurrent env (suspensions st)) st in
    (Returned tt,
     mkState (stop_event st1) (telemetry_queue st1)
             (now st1 + Z.max 0 seconds) (S (suspensions st1)) (trace st1)).

(** [asyncio.sleep(seconds)]; a delay that is not positive only yields. *)
Definition sleep (seconds : Z) : M unit :=
  log (Sleep seconds) ;; suspend seconds.

(** The write is awaited inside [try]; when it raises an [Exception] the
    [except Exception] clause prints the failure and the call returns. *)
Definition _write_command (command : list byte) : M unit :=
  fun st =>
    let ok := write_acknowledged env (suspensions st) in
    (log (WriteGatt command ok) ;;
     suspend 0 ;;
     if ok then ret tt else log (PrintFailed command)) st.

Definition start : M unit :=
  set_flag false ;;
  let command := [START_OP_CODE] in
  _write_command command.

Definition _pause : M unit :=
  set_flag true ;;
  let command := [STOP_PAUSE_OP_CODE; PAUSE_HEX] in
  _write_command command.

Definition stop : M unit :=
  set_flag true ;;
  let command := [STOP_PAUSE_OP_CODE; STOP_HEX] in
  _write_command command.

Definition set_speed (speed_meters_per_sec : Decimal) : M unit :=
  command <- lift (set_speed_command speed_meters_per_sec) ;;
  _write_command command.

(** [put] on the unbounded queue completes at once. *)
Definition _notification_handler (data : list byte) : M unit :=
  let metrics := decode data in
  put metrics.

(** [start_notify] is not guarded: what it raises leaves [subscribe]. *)
Definition subscribe : M unit :=
  fun st =>
    let ok := notify_started env (suspensions st) in
    (log StartNotify ;;
     suspend 0 ;;
     if ok then log PrintSubscribed else lift (Raised ClientError)) st.

(** The [for] loop of [start_workout]. *)
Fixpoint workout_loop (intervals : list (Decimal * Z)) : M unit :=
  match intervals with
  | [] => ret tt
  | interval :: rest =>
      fun st =>
        if stop_event st then (Returned tt, st)        (* break *)
        else
          (let '(speed_ms, duration_s) := interval in
           set_speed speed_ms ;;
           sleep duration_s ;;
           workout_loop rest) st
  end.

Definition start_workout (intervals : list (Decimal * Z)) : M unit :=
  start ;;
  sleep 5 ;;
  workout_loop intervals ;;
  _pause.

End Controller.

(* ================================================================== *)
(** ** Calls on the controller, and what a trace shows *)

(** The coroutines of the class, as values. *)
Inductive call : Type :=
| CallStart
| CallPause                                   (* [_pause] *)
| CallStop
| CallSetSpeed (speed_meters_per_sec : Decimal)
| CallNotify (data : list byte)               (* [_notification_handler] *)
| CallSubscribe
| CallStartWorkout (intervals : list (Decimal * Z)).

Definition perform (env : environment) (c : call) : M unit :=
  match c with
  | CallStart => start env
  | CallPause => _pause env
  | CallStop => stop env
  | CallSetSpeed v => set_speed env v
  | CallNotify data => _notification_handler data
  | CallSubscribe => subscribe env
  | CallStartWorkout intervals => start_workout env intervals
  end.

(** What the scheduler itself does, as a trace shows it: the commands
    handed to the client (acknowledged or not) and the sleeps. *)
Inductive action : Type :=
| Sent (command : list byte)
| Waited (seconds : Z).

Definition action_of (te : Z * event) : list action :=
  match snd te with
  | WriteGatt command _ => [Sent command]
  | Sleep seconds => [Waited seconds]
  | _ => []
  end.

Definition actions (tr : list (Z * event)) : list action :=
  flat_map action_of tr.

(** The time of the first write or sleep in a trace. *)
Fixpoint next_action_time (tr : list (Z * event)) : option Z :=
  match tr with
  | [] => None
  | (t, WriteGatt _ _) :: _ => Some t
  | (t, Sleep _) :: _ => Some t
  | _ :: rest => next_action_time rest
  end.

(** The seconds between the first [stop()] of another task and the next
    write or sleep of the run. *)
Fixpoint stop_latency (tr : list (Z * event)) : option Z :=
  match tr with
  | [] => None
  | (t, Concurrent OtherStop) :: rest =>
      match next_action_time rest with
      | Some t' => Some (t' - t)
      | None => None
      end
  | _ :: rest => stop_latency rest
  end.

(** The event a concurrent [stop()]/[start()] leaves the flag in. *)
Definition flag_after (calls : list (Z * concurrent_call)) (b : bool) : bool :=
  fold_left
    (fun b oc => match snd oc with OtherStop => true | OtherStart => false end)
    calls b.

(** No other task touches the controller. *)
Definition quiet (env : environment) : Prop :=
  forall k, concurrent env k = [].

(** The same surroundings, but with every write acknowledged. *)
Definition acknowledging (env : environment) : environment :=
  mkEnvironment (fun _ => true) (notify_started env) (concurrent env).

(** Two states that differ at most in what their traces say beside the
    commands sent and the sleeps: acknowledgements, failure reports and
    the calls of other tasks. *)
Definition same_run (st1 st2 : state) : Prop :=
  stop_event st1 = stop_event st2 /\
  telemetry_queue st1 = telemetry_queue st2 /\
  now st1 = now st2 /\
  suspensions st1 = suspensions st2 /\
  actions (trace st1) = actions (trace st2).

(** [forall_from start count p]: [p] holds of the [count] integers from
    [start] on. *)
Fixpoint forall_from (start : Z) (count : nat) (p : Z -> bool) : bool :=
  match count with
  | O => true
  | S c => p start && forall_from (start + 1) c p
  end.

(* ================================================================== *)
(** ** The vocabulary of the specification *)

(** The specification's commands. *)
Inductive Command : Type :=
| Start
| Pause
| Stop
| SetSpeed (speed : Decimal).

(** The coroutine that issues a command. *)
Definition issue (env : environment) (c : Command) : M unit :=
  match c with
  | Start => start env
  | Pause => _pause env
  | Stop => stop env
  | SetSpeed v => set_speed env v
  end.

(** The bytes that coroutine hands to [_write_command]. *)
Definition wire (c : Command) : outcome (list byte) :=
  match c with
  | Start => Returned [START_OP_CODE]
  | Pause => Returned [STOP_PAUSE_OP_CODE; PAUSE_HEX]
  | Stop => Returned [STOP_PAUSE_OP_CODE; STOP_HEX]
  | SetSpeed v => set_speed_command v
  end.

Definition wire_bytes (c : Command) : list byte :=
  match wire c with
  | Returned bs => bs
  | Raised _ => []
  end.

Definition encodable (v : Decimal) : bool :=
  match set_speed_command v with
  | Returned _ => true
  | Raised _ => false
  end.

(** The speed in hundredths of a metre per second, for a decimal with
    at most two decimal places. *)
Definition hundredths (v : Decimal) : Z :=
  coefficient v * 10 ^ (exponent v + 2).

(** Rounding of a rational to the nearest integer, ties to even. *)
Definition round_half_even (q : Q) : Z :=
  div_half_even (Qnum q) (Z.pos (Qden q)).

(** Truncation of a rational towards zero. *)
Definition truncate (q : Q) : Z :=
  Z.quot (Qnum q) (Z.pos (Qden q)).

(** The encoding in the specification's words:
    [SetSpeed(v)] is [[0x02] ++ little_endian_u16(round(v * 100))]. *)
Definition spec_encode (c : Command) : list byte :=
  match c with
  | Start => [x07]
  | Pause => [x08; x02]
  | Stop => [x08; x01]
  | SetSpeed v => [x02] ++ le_digits 2 (round_half_even (value v * (100 # 1)))
  end.

(** The steps of a workout in the specification's words. *)
Inductive step : Type :=
| Send (c : Command)
| Wait (seconds : Z).

Definition interval_steps (intervals : list (Decimal * Z)) : list step :=
  flat_map (fun iv => [Send (SetSpeed (fst iv)); Wait (snd iv)]) intervals.

Definition plan (intervals : list (Decimal * Z)) : list step :=
  [Send Start; Wait 5] ++ interval_steps intervals ++ [Send Pause].

Definition observed (s : step) : action :=
  match s with
  | Send c => Sent (wire_bytes c)
  | Wait seconds => Waited seconds
  end.

(** Whether a run acted on the first [stop()] of another task within
    [limit] seconds. *)
Definition preempted_within (limit : Z) (tr : list (Z * event)) : Prop :=
  match stop_latency tr with
  | Some latency => latency <= limit
  | None => True
  end.

(** Checks on the quotient [n / 100] computed in binary64: it is a finite
    number within one rounding of the exact quotient, and it is the exact
    quotient just when [n] is a multiple of 25. *)
Definition quotient_accurate (n : Z) : bool :=
  match float_value (truediv n 100) with
  | Some q => Qle_bool (Qabs (q - (n # 100))) ((n # 100) * (1 # 2 ^ 53))
  | None => false
  end.

Definition quotient_exact (n : Z) : bool :=
  match float_value (truediv n 100) with
  | Some q => Qeq_bool q (n # 100)
  | None => false
  end.

(** [f] is a binary64 number nearest to the rational [x]: it is finite
    and at least as close to [x] as the binary64 numbers next above and
    next below it. *)
Definition nearest_binary64 (x : Q) (f : float) : Prop :=
  exists q above below : Q,
    float_value f = Some q /\
    float_value (PrimFloat.next_up f) = Some above /\
    float_value (PrimFloat.next_down f) = Some below /\
    (Qabs (q - x) <= Qabs (above - x))%Q /\
    (Qabs (q - x) <= Qabs (below - x))%Q.

Definition quotient_nearest (n : Z) : bool :=
  let f := truediv n 100 in
  match float_value f,
        float_value (PrimFloat.next_up f),
        float_value (PrimFloat.next_down f) with
  | Some q, Some above, Some below =>
      Qle_bool (Qabs (q - (n # 100))) (Qabs (above - (n # 100)))
      && Qle_bool (Qabs (q - (n # 100))) (Qabs (below - (n # 100)))
  | _, _, _ => false
  end.

(* ================================================================== *)
(** ** Concrete inputs used below *)

Definition speed_3_00 : Decimal := mkDecimal 300 (-2).     (* Decimal("3.00") *)
Definition speed_2_00 : Decimal := mkDecimal 200 (-2).     (* Decimal("2.00") *)
Definition speed_2_999 : Decimal := mkDecimal 2999 (-3).   (* Decimal("2.999") *)
Definition speed_0_29 : Decimal := mkDecimal 29 (-2).      (* Decimal("0.29") *)
Definition speed_700 : Decimal := mkDecimal 700 0.         (* Decimal("700") *)

(** [Decimal("2.9999999999999999999999999995")]: 29 significant digits. *)
Definition speed_29_digits : Decimal :=
  mkDecimal 29999999999999999999999999995 (-28).

(** A 19-byte frame with the given bytes at offsets 2 and 3 and zeros
    elsewhere. *)
Definition frame_with_speed (lo hi : byte) : list byte :=
  [x00; x00; lo; hi] ++ repeat x00 15.

(** Every write is acknowledged and no other task runs. *)
Definition calm : environment :=
  mkEnvironment (fun _ => true) (fun _ => true) (fun _ => []).

(** Every write fails and no other task runs. *)
Definition deaf : environment :=
  mkEnvironment (fun _ => false) (fun _ => true) (fun _ => []).

(** Another task calls [stop()] one second into the suspension numbered
    3: in a workout, the wait of the first interval. *)
Definition stop_in_first_wait : environment :=
  mkEnvironment (fun _ => true) (fun _ => true)
                (fun k => if Nat.eqb k 3 then [(1, OtherStop)] else []).

(** The controller after a [stop()] that went through. *)
Definition stopped : state := snd (stop calm (init [])).

(* ================================================================== *)
(** ** Further vocabulary: sequences of calls, and what they amount to *)

(** Two commands that mean the same to the treadmill: the same kind, and
    for two speeds the same scaled value. *)
Definition same_command (c1 c2 : Command) : Prop :=
  match c1, c2 with
  | Start, Start => True
  | Pause, Pause => True
  | Stop, Stop => True
  | SetSpeed v1, SetSpeed v2 => target_speed_of v1 = target_speed_of v2
  | _, _ => False
  end.

(** Calls made one after the other, each awaited to its end; a call that
    raises leaves the controller as it is at that point, and the next
    call goes on from there. *)
Definition run_calls (env : environment) (cs : list call) (st : state)
  : state :=
  fold_left (fun s c => snd (perform env c s)) cs st.

(** The frames handed to [_notification_handler] in a sequence of calls. *)
Definition notified (cs : list call) : list (list byte) :=
  flat_map (fun c => match c with CallNotify data => [data] | _ => [] end) cs.




(** Check on two neighbouring raw speeds: the binary64 quotients are
    finite and increase. *)
Definition quotient_increases (n : Z) : bool :=
  match float_value (truediv n 100), float_value (truediv (n + 1) 100) with
  | Some q, Some q' => negb (Qle_bool q' q)
  | _, _ => false
  end.

(** The commands whose write failed (raised an [Exception]), and the
    commands reported as failed, each in the order of the trace. *)
Definition failed_writes (tr : list (Z * event)) : list (list byte) :=
  flat_map (fun te => match snd te with
                      | WriteGatt command false => [command]
                      | _ => []
                      end) tr.

Definition reports (tr : list (Z * event)) : list (list byte) :=
  flat_map (fun te => match snd te with
                      | PrintFailed command => [command]
                      | _ => []
                      end) tr.

(** [st'] comes after [st] with as many failures reported as made. *)
Definition reported_since (st st' : state) : Prop :=
  exists failed : list (list byte),
    failed_writes (trace st') = failed_writes (trace st) ++ failed /\
    reports (trace st') = reports (trace st) ++ failed.

(* ================================================================== *)
(** ** The earlier class, [treadmill/controller.py] *)

(** The repository's earlier [TreadmillController]: no telemetry queue
    and no workout; speeds are [float]s; [subscribe] polls the event once
    a second.  Its [start], [pause], [stop] and [set_speed] call
    [self._write_command(command)] without [await]: the coroutine object
    is made and dropped, and its body never runs. *)
Module Legacy.

Inductive exception : Type :=
| OverflowError     (* [int(inf)], [int.to_bytes] *)
| ValueError        (* [int(nan)] *)
| ClientError.      (* raised by the BLE client *)

Inductive result (A : Type) : Type :=
| Return (a : A)
| Raise (e : exception).

Arguments Return {A} a.
Arguments Raise {A} e.

Inductive event : Type :=
| NeverAwaited (command : list byte)
    (* [self._write_command(command)], not awaited *)
| WriteGatt (command : list byte) (acknowledged : bool)
| PrintWritten (command : list byte)
| PrintFailed (command : list byte)
| Sleep (seconds : Z)
| StartNotify
| PrintSubscribed
| IsConnected (answer : bool)              (* [client.is_connected()] *)
| StopNotify
| PrintStopped
| PrintMetrics (m : metrics)               (* the line of the handler *)
| Concurrent (c : concurrent_call).

(** The surroundings, by suspension number as before; [connected k] is
    the answer of the [is_connected] awaited at suspension [k]. *)
Record environment : Type := mkEnvironment {
  write_acknowledged : nat -> bool;
  notify_started : nat -> bool;
  notify_stopped : nat -> bool;
  connected : nat -> bool;
  concurrent : nat -> list (Z * concurrent_call)
}.

Record state : Type := mkState {
  stop_event : bool;
  now : Z;
  suspensions : nat;
  trace : list (Z * event)
}.

Definition init : state := mkState false 0 0 [].

Definition M (A : Type) : Type := state -> result A * state.

Definition ret {A : Type} (a : A) : M A := fun st => (Return a, st).

Definition bind {A B : Type} (m : M A) (k : A -> M B) : M B :=
  fun st =>
    match m st with
    | (Return a, st') => k a st'
    | (Raise e, st') => (Raise e, st')
    end.

Definition raise {A : Type} (e : exception) : M A := fun st => (Raise e, st).

Definition set_flag (b : bool) : M unit :=
  fun st => (Return tt, mkState b (now st) (suspensions st) (trace st)).

Definition log (e : event) : M unit :=
  fun st => (Return tt,
             mkState (stop_event st) (now st) (suspensions st)
                     (trace st ++ [(now st, e)])).

(** A call by another task: here only [stop()] touches the event;
    [start()] does not clear it. *)
Definition interleave (st : state) (oc : Z * concurrent_call) : state :=
  mkState (match snd oc with OtherStop => true | OtherStart => stop_event st end)
          (now st) (suspensions st)
          (trace st ++ [(now st + fst oc, Concurrent (snd oc))]).

(** [int(f)] for a [float]: truncation towards zero. *)
Definition int_of_float (f : float) : result Z :=
  match Prim2SF f with
  | S754_zero _ => Return 0
  | S754_finite s m e =>
      let mag := if e <? 0 then Z.pos m / 2 ^ (- e) else Z.pos m * 2 ^ e in
      Return (if s then - mag else mag)
  | S754_infinity _ => Raise OverflowError
  | S754_nan => Raise ValueError
  end.

(** [int(speed_mps * 100)]; the [int] 100 is converted exactly. *)
Definition target_speed_of (speed_mps : float) : result Z :=
  int_of_float (PrimFloat.mul speed_mps (PrimFloat.of_uint63 100%uint63)).

Definition set_speed_command (speed_mps : float) : result (list byte) :=
  match target_speed_of speed_mps with
  | Raise e => Raise e
  | Return target =>
      match to_bytes target 2 with
      | Raised _ => Raise OverflowError
      | Returned speed_bytes => Return ([SPEED_OP_CODE] ++ speed_bytes)
      end
  end.

Section Controller.

Variable env : environment.

Definition suspend (seconds : Z) : M unit :=
  fun st =>
    let st1 := fold_left interleave (concurrent env (suspensions st)) st in
    (Return tt,
     mkState (stop_event st1) (now st1 + Z.max 0 seconds)
             (S (suspensions st1)) (trace st1)).

Definition sleep (seconds : Z) : M unit :=
  bind (log (Sleep seconds)) (fun _ => suspend seconds).

Definition _write_command (command : list byte) : M unit :=
  fun st =>
    let ok := write_acknowledged env (suspensions st) in
    bind (log (WriteGatt command ok))
         (fun _ => bind (suspend 0)
                        (fun _ => if ok then log (PrintWritten command)
                                  else log (PrintFailed command))) st.

Definition start : M unit :=
  let command := [START_OP_CODE] in
  log (NeverAwaited command).

Definition pause : M unit :=
  let command := [STOP_PAUSE_OP_CODE; PAUSE_HEX] in
  log (NeverAwaited command).

Definition stop : M unit :=
  let command := [STOP_PAUSE_OP_CODE; STOP_HEX] in
  bind (set_flag true) (fun _ => log (NeverAwaited command)).

Definition set_speed (speed_mps : float) : M unit :=
  match set_speed_command speed_mps with
  | Raise e => raise e
  | Return command => log (NeverAwaited command)
  end.

(** The handler joins the four [name: value] pairs and prints the line;
    the line is represented by the values it shows. *)
Definition _notification_handler (data : list byte) : M unit :=
  log (PrintMetrics (decode data)).

(** [await self.client.is_connected()]. *)
Definition is_connected : M bool :=
  fun st =>
    let answer := connected env (suspensions st) in
    bind (log (IsConnected answer))
         (fun _ => bind (suspend 0) (fun _ => ret answer)) st.

(** The [while] loop of [subscribe], for at most [fuel] checks of its
    condition; [None] when the checks run out. *)
Fixpoint poll (fuel : nat) (st : state) : option state :=
  match fuel with
  | O => None
  | S fuel' =>
      if stop_event st then Some st
      else
        match is_connected st with
        | (Return true, st1) => poll fuel' (snd (sleep 1 st1))
        | (_, st1) => Some st1
        end
  end.

(** [subscribe]: [start_notify] is outside the [try]; the [finally]
    block runs when the loop ends. *)
Definition subscribe (fuel : nat) (st : state)
  : option (result unit * state) :=
  let started := notify_started env (suspensions st) in
  let '(_, st1) := bind (log StartNotify) (fun _ => suspend 0) st in
  if started then
    let '(_, st2) := log PrintSubscribed st1 in
    match poll fuel st2 with
    | None => None
    | Some st3 =>
        let stopped := notify_stopped env (suspensions st3) in
        let '(_, st4) := bind (log StopNotify) (fun _ => suspend 0) st3 in
        if stopped then Some (log PrintStopped st4)
        else Some (Raise ClientError, st4)
    end
  else Some (Raise ClientError, st1).

End Controller.

Inductive call : Type :=
| CallStart
| CallPause
| CallStop
| CallSetSpeed (speed_mps : float)
| CallNotify (data : list byte)
| CallSubscribe.

Definition perform (fuel : nat) (env : environment) (c : call) (st : state)
  : option (result unit * state) :=
  match c with
  | CallStart => Some (start st)
  | CallPause => Some (pause st)
  | CallStop => Some (stop st)
  | CallSetSpeed f => Some (set_speed f st)
  | CallNotify data => Some (_notification_handler data st)
  | CallSubscribe => subscribe env fuel st
  end.

(** Calls one after the other; [None] when a [subscribe] runs out of
    checks. *)
Fixpoint run_calls (fuel : nat) (env : environment) (cs : list call)
         (st : state) : option state :=
  match cs with
  | [] => Some st
  | c :: rest =>
      match perform fuel env c st with
      | None => None
      | Some (_, st') => run_calls fuel env rest st'
      end
  end.

(** The commands handed to the client. *)
Definition writes (tr : list (Z * event)) : list (list byte) :=
  flat_map (fun te => match snd te with
                      | WriteGatt command _ => [command]
                      | _ => []
                      end) tr.

(** [st'] comes after [st] with no further write and without the event
    having been cleared. *)
Definition follows (st st' : state) : Prop :=
  writes (trace st') = writes (trace st) /\
  (stop_event st = true -> stop_event st' = true).

Definition is_stop (c : call) : bool :=
  match c with CallStop => true | _ => false end.

Definition quiet (env : environment) : Prop :=
  forall k, concurrent env k = [].

(** The next [rounds] turns of the loop from suspension [k] on find the
    client connected and no other task calling. *)
Definition undisturbed (env : environment) (k : nat) (rounds : nat) : Prop :=
  forall i, (i < rounds)%nat ->
    connected env (k + 2 * i) = true /\
    concurrent env (k + 2 * i) = [] /\
    concurrent env (k + 2 * i + 1) = [].

(** What [rounds] undisturbed turns of the loop add to the trace when
    they begin at time [t]: each asks the client and sleeps a second. *)
Fixpoint rounds_events (t : Z) (rounds : nat) : list (Z * event) :=
  match rounds with
  | O => []
  | S r => (t, IsConnected true) :: (t, Sleep 1) :: rounds_events (t + 1) r
  end.

(** Surroundings in which the client does all it is asked, stays
    connected, and no other task calls. *)
Definition steady : environment :=
  mkEnvironment (fun _ => true) (fun _ => true) (fun _ => true)
                (fun _ => true) (fun _ => []).

(** The same, but another task calls [stop()] 0 seconds into the
    suspension numbered 6: with [subscribe] called first, the sleep of
    the third turn of its loop. *)
Definition stopped_in_third_sleep : environment :=
  mkEnvironment (fun _ => true) (fun _ => true) (fun _ => true)
                (fun _ => true)
                (fun k => if Nat.eqb k 6 then [(0, OtherStop)] else []).

(** The same as [steady], but the client is found disconnected at the
    suspension numbered 5: the third turn of the loop. *)
Definition lost_in_third_turn : environment :=
  mkEnvironment (fun _ => true) (fun _ => true) (fun _ => true)
                (fun k => negb (Nat.eqb k 5)) (fun _ => []).

(** Check on a speed of [n] hundredths given as the nearest [float]:
    scaling gives [n] or [n - 1]. *)
Definition scaled_within_one (n : Z) : bool :=
  match target_speed_of (truediv n 100) with
  | Return t => (0 <=? t) && ((t =? n) || (t =? n - 1))
  | Raise _ => false
  end.

End Legacy.

(* ================================================================== *)
(** ** Bytes and integers *)

Lemma byte_val_range (b : byte) : 0 <= byte_val b < 256.
Proof.
  unfold byte_val. pose proof (Byte.to_N_bounded b). lia.
Qed.

Lemma byte_of_val (b : byte) : byte_of (byte_val b) = b.
Proof.
  unfold byte_of, byte_val. rewrite N2Z.id, Byte.of_to_N. reflexivity.
Qed.

Lemma byte_val_of (z : Z) : 0 <= z < 256 -> byte_val (byte_of z) = z.
Proof.
  intros Hz. unfold byte_of, byte_val.
  destruct (Byte.of_N (Z.to_N z)) as [b|] eqn:E.
  - apply Byte.to_of_N in E. rewrite E. lia.
  - apply Byte.of_N_None_iff in E. lia.
Qed.

Lemma from_bytes_range (bs : list byte) :
  0 <= from_bytes bs < 256 ^ Z.of_nat (length bs).
Proof.
  induction bs as [|b bs IH].
  - simpl. lia.
  - cbn [from_bytes length]. rewrite Nat2Z.inj_succ, Z.pow_succ_r by lia.
    pose proof (byte_val_range b). lia.
Qed.

Lemma from_bytes_le_digits (length : nat) (n : Z) :
  0 <= n < 256 ^ Z.of_nat length -> from_bytes (le_digits length n) = n.
Proof.
  revert n. induction length as [|k IH]; intros n Hn.
  - simpl in *. lia.
  - cbn [le_digits from_bytes].
    rewrite Nat2Z.inj_succ, Z.pow_succ_r in Hn by lia.
    rewrite byte_val_of by (apply Z.mod_pos_bound; lia).
    rewrite IH.
    + pose proof (Z.div_mod n 256). lia.
    + split.
      * apply Z.div_pos; lia.
      * apply Z.div_lt_upper_bound; lia.
Qed.

Lemma le_digits_from_bytes (bs : list byte) :
  le_digits (length bs) (from_bytes bs) = bs.
Proof.
  induction bs as [|b bs IH].
  - reflexivity.
  - cbn [length le_digits from_bytes].
    pose proof (byte_val_range b) as Hb.
    replace ((byte_val b + 256 * from_bytes bs) mod 256) with (byte_val b).
    2:{ apply Z.mod_unique with (q := from_bytes bs); lia. }
    replace ((byte_val b + 256 * from_bytes bs) / 256) with (from_bytes bs).
    2:{ apply Z.div_unique with (r := byte_val b); lia. }
    rewrite byte_of_val, IH. reflexivity.
Qed.

Lemma to_bytes_in_range (n : Z) (length : nat) :
  0 <= n < 256 ^ Z.of_nat length ->
  to_bytes n length = Returned (le_digits length n).
Proof.
  intros Hn. unfold to_bytes.
  destruct (Z.ltb_spec n 0); [lia|].
  destruct (Z.leb_spec (256 ^ Z.of_nat length) n); [lia|]. reflexivity.
Qed.

Lemma to_bytes_out_of_range (n : Z) (length : nat) :
  n < 0 \/ 256 ^ Z.of_nat length <= n ->
  to_bytes n length = Raised OverflowError.
Proof.
  intros Hn. unfold to_bytes.
  destruct (Z.ltb_spec n 0); [reflexivity|].
  destruct (Z.leb_spec (256 ^ Z.of_nat length) n); [reflexivity|]. lia.
Qed.

(* ================================================================== *)
(** ** Decimal arithmetic *)

Lemma digits_fuel_le (fuel : nat) (n k : Z) :
  0 <= k -> n < 10 ^ k -> digits_fuel fuel n <= k.
Proof.
  revert n k. induction fuel as [|f IH]; intros n k Hk Hn.
  - simpl. lia.
  - cbn [digits_fuel]. destruct (Z.leb_spec n 0) as [Hle|Hpos]; [lia|].
    assert (Hk1 : 1 <= k).
    { destruct (Z.eq_dec k 0) as [->|]; [simpl in Hn; lia | lia]. }
    specialize (IH (n / 10) (k - 1)).
    replace k with (Z.succ (k - 1)) in Hn by lia.
    rewrite Z.pow_succ_r in Hn by lia.
    assert (n / 10 < 10 ^ (k - 1)) by (apply Z.div_lt_upper_bound; lia).
    lia.
Qed.

Lemma ndigits_le (n k : Z) : 0 <= k -> n < 10 ^ k -> ndigits n <= k.
Proof. intros. unfold ndigits. apply digits_fuel_le; assumption. Qed.

Lemma digits_fuel_spec (fuel : nat) (n : Z) :
  0 < n < 2 ^ Z.of_nat fuel ->
  10 ^ (digits_fuel fuel n - 1) <= n < 10 ^ digits_fuel fuel n.
Proof.
  revert n. induction fuel as [|f IH]; intros n Hn.
  - simpl in Hn. lia.
  - cbn [digits_fuel]. destruct (Z.leb_spec n 0) as [|_]; [lia|].
    rewrite Nat2Z.inj_succ, Z.pow_succ_r in Hn by lia.
    destruct (Z.lt_ge_cases n 10) as [Hsmall|Hbig].
    + rewrite Z.div_small by lia.
      replace (digits_fuel f 0) with 0 by (destruct f; reflexivity).
      simpl. lia.
    + assert (Hq : 0 < n / 10 < 2 ^ Z.of_nat f).
      { split.
        - apply Z.div_str_pos. lia.
        - apply Z.div_lt_upper_bound; lia. }
      specialize (IH _ Hq).
      assert (Hd : 0 < digits_fuel f (n / 10)).
      { destruct (Z.lt_ge_cases 0 (digits_fuel f (n / 10))) as [|Hle]; [assumption|].
        exfalso. destruct IH as [_ IH2].
        assert (10 ^ digits_fuel f (n / 10) <= 1).
        { destruct (Z.eq_dec (digits_fuel f (n / 10)) 0) as [->|];
            [simpl; lia | rewrite Z.pow_neg_r by lia; lia]. }
        lia. }
      replace (1 + digits_fuel f (n / 10) - 1)
        with (Z.succ (digits_fuel f (n / 10) - 1)) by lia.
      replace (1 + digits_fuel f (n / 10))
        with (Z.succ (digits_fuel f (n / 10))) by lia.
      rewrite !Z.pow_succ_r by lia.
      pose proof (Z.div_mod n 10 ltac:(lia)).
      pose proof (Z.mod_pos_bound n 10 ltac:(lia)).
      lia.
Qed.

(** [ndigits] counts decimal digits. *)
Lemma ndigits_spec (n : Z) :
  0 < n -> 10 ^ (ndigits n - 1) <= n < 10 ^ ndigits n.
Proof.
  intros Hn. unfold ndigits. apply digits_fuel_spec.
  split; [exact Hn|].
  rewrite Nat2Z.inj_succ, Z2Nat.id by (apply Z.log2_nonneg).
  apply Z.log2_spec. exact Hn.
Qed.

(** Python: [Decimal("2.99999999999999999999999999999") * 100] is
    [Decimal("300.0000000000000000000000000")]; [Decimal("1E+999999") * 100]
    raises [decimal.Overflow]. *)
Example mul_int_rounds_to_context :
  mul_int (mkDecimal 299999999999999999999999999999 (-29)) 100
  = Returned (mkDecimal 3000000000000000000000000000 (-25)).
Proof. vm_compute. reflexivity. Qed.

Example mul_int_overflows :
  mul_int (mkDecimal 1 999999) 100 = Raised DecimalOverflow.
Proof. vm_compute. reflexivity. Qed.

Lemma fix_prec_short (d : Decimal) :
  Z.abs (coefficient d) < 10 ^ prec -> fix_prec d = d.
Proof.
  intros H. unfold fix_prec.
  destruct (Z.ltb_spec (Z.abs (coefficient d)) (10 ^ prec)); [reflexivity|lia].
Qed.

(** With at most 26 significant digits the product by 100 is exact: either
    the context overflows or the coefficient is just multiplied. *)
Lemma mul_int_100_exact (d r : Decimal) :
  Z.abs (coefficient d) < 10 ^ 26 ->
  mul_int d 100 = Returned r ->
  r = mkDecimal (coefficient d * 100) (exponent d).
Proof.
  intros Hc. unfold mul_int.
  rewrite fix_prec_short.
  2:{ cbn [coefficient]. unfold prec. change (10 ^ 28) with (10 ^ 26 * 100). lia. }
  destruct (_ && _); congruence.
Qed.

Lemma scaled_num (v : Decimal) :
  Qnum (value v * (100 # 1)) =
  if 0 <=? exponent v then coefficient v * 10 ^ exponent v * 100
  else coefficient v * 100.
Proof. unfold value. destruct (0 <=? exponent v); reflexivity. Qed.

Lemma scaled_den (v : Decimal) :
  Z.pos (Qden (value v * (100 # 1))) =
  if 0 <=? exponent v then 1 else 10 ^ (- exponent v).
Proof.
  unfold value. destruct (Z.leb_spec 0 (exponent v)) as [H|H].
  - reflexivity.
  - cbn [Qmult Qden]. rewrite Pos.mul_1_r.
    rewrite Z2Pos.id; [reflexivity|]. apply Z.pow_pos_nonneg; lia.
Qed.

(** [int(v * 100)] is the exact product truncated towards zero. *)
Lemma target_speed_truncates (v : Decimal) (n : Z) :
  Z.abs (coefficient v) < 10 ^ 26 ->
  target_speed_of v = Returned n ->
  n = truncate (value v * (100 # 1)).
Proof.
  intros Hc. unfold target_speed_of.
  destruct (mul_int v 100) as [r|e] eqn:E; [|discriminate].
  apply mul_int_100_exact in E; [|exact Hc]. subst r.
  intros [= <-]. unfold truncate, to_int.
  rewrite scaled_num, scaled_den. cbn [coefficient exponent].
  destruct (0 <=? exponent v).
  - rewrite Z.quot_1_r. ring.
  - reflexivity.
Qed.

(** Python: [int(Decimal("-2.999") * 100)] is [-299]. *)
Example target_speed_truncates_towards_zero :
  target_speed_of (mkDecimal (-2999) (-3)) = Returned (-299).
Proof. vm_compute. reflexivity. Qed.

Lemma div_half_even_near (n m : Z) :
  n / m <= div_half_even n m <= n / m + 1.
Proof.
  unfold div_half_even.
  destruct (2 * (n mod m) <? m); [lia|].
  destruct (m <? 2 * (n mod m)); [lia|].
  destruct (Z.even (n / m)); lia.
Qed.

(** Beyond 26 significant digits the product no longer fits the 28 digits
    of the context and is rounded before [int] truncates it: the value
    sent is the truncation of the exact product, or one more. *)
Lemma target_speed_near_truncation (v : Decimal) (n : Z) :
  target_speed_of v = Returned n ->
  0 <= n <= 65535 ->
  truncate (value v * (100 # 1)) <= n <= truncate (value v * (100 # 1)) + 1.
Proof.
  intros Ht Hn.
  destruct (Z.lt_ge_cases (Z.abs (coefficient v)) (10 ^ 26)) as [Hc|Hc].
  { rewrite <- (target_speed_truncates v n Hc Ht). lia. }
  revert Ht. unfold target_speed_of, mul_int, fix_prec.
  cbn [coefficient exponent].
  set (c := coefficient v) in *. set (e := exponent v).
  set (a := Z.abs (c * 100)).
  assert (Ha : 10 ^ 28 <= a).
  { unfold a. rewrite Z.abs_mul. change (10 ^ 28) with (10 ^ 26 * 100).
    change (Z.abs 100) with 100. lia. }
  destruct (Z.ltb_spec a (10 ^ prec)) as [Hlt|_];
    [unfold prec in Hlt; lia|].
  set (drop := ndigits a - prec).
  pose proof (ndigits_spec a ltac:(lia)) as [Hlo Hhi].
  assert (Hd : 1 <= drop).
  { unfold drop, prec.
    destruct (Z.lt_ge_cases (ndigits a) 29) as [Hs|]; [|lia].
    assert (10 ^ ndigits a <= 10 ^ 28) by (apply Z.pow_le_mono_r; lia).
    lia. }
  set (D := 10 ^ drop).
  assert (HD : 0 < D) by (apply Z.pow_pos_nonneg; lia).
  pose proof (div_half_even_near a D) as Hm.
  set (m := div_half_even a D) in *.
  assert (Hq : 10 ^ 27 <= a / D).
  { apply Z.div_le_lower_bound; [exact HD|].
    unfold D. rewrite <- Z.pow_add_r by lia.
    replace (drop + 27) with (ndigits a - 1) by (unfold drop, prec; lia).
    exact Hlo. }
  cbn [coefficient exponent].
  destruct (_ && _); [discriminate|].
  intros [= <-]. unfold to_int in *. cbn [coefficient exponent] in *.
  unfold truncate. rewrite scaled_num, scaled_den. fold c e.
  assert (Hs : Z.sgn (c * 100) = 1 \/ Z.sgn (c * 100) = -1).
  { destruct (Z.sgn_spec (c * 100)) as [[? ?]|[[? ?]|[? ?]]]; unfold a in Ha; lia. }
  destruct (Z.leb_spec 0 (e + drop)) as [He|He].
  { exfalso.
    assert (1 <= 10 ^ (e + drop)) by (apply Z.lt_pred_le, Z.pow_pos_nonneg; lia).
    assert (10 ^ 27 <= m) by lia.
    change (10 ^ 27) with 1000000000000000000000000000 in *.
    destruct Hs as [Hs|Hs]; rewrite Hs in Hn; nia. }
  destruct (Z.leb_spec 0 e) as [He0|He0]; [lia|].
  set (G := 10 ^ (- (e + drop))) in *.
  assert (HG : 0 < G) by (apply Z.pow_pos_nonneg; lia).
  assert (EG : 10 ^ (- e) = D * G).
  { unfold D, G. rewrite <- Z.pow_add_r by lia. f_equal. lia. }
  rewrite EG.
  assert (Hm0 : 0 <= m) by lia.
  destruct Hs as [Hs|Hs]; rewrite Hs in *.
  - assert (Ea : c * 100 = a).
    { unfold a. apply Z.sgn_pos_iff in Hs. lia. }
    rewrite Ea, Z.mul_1_l in *.
    rewrite !Z.quot_div_nonneg by lia.
    rewrite <- Z.div_div by lia.
    split.
    + apply Z.div_le_mono; lia.
    + transitivity ((a / D + 1) / G).
      * apply Z.div_le_mono; lia.
      * pose proof (Z.div_mod (a / D) G ltac:(lia)).
        pose proof (Z.mod_pos_bound (a / D) G HG).
        apply Z.lt_succ_r, Z.div_lt_upper_bound; [exact HG|]. nia.
  - assert (Ea : c * 100 = - a).
    { unfold a. apply Z.sgn_neg_iff in Hs. lia. }
    rewrite Ea in *.
    replace (-1 * m) with (- m) in * by lia.
    rewrite !Z.quot_opp_l in * by lia.
    rewrite !Z.quot_div_nonneg in * by lia.
    rewrite <- Z.div_div by lia.
    assert (0 <= m / G) by (apply Z.div_pos; lia).
    assert (a / D / G <= m / G) by (apply Z.div_le_mono; lia).
    assert (0 <= a / D / G) by (apply Z.div_pos; lia).
    lia.
Qed.

Lemma div_half_even_exact (q m : Z) : 0 < m -> div_half_even (q * m) m = q.
Proof.
  intros Hm. unfold div_half_even.
  rewrite Z.div_mul, Z.mod_mul by lia.
  destruct (Z.ltb_spec (2 * 0) m); [reflexivity|lia].
Qed.

Lemma round_two_places (v : Decimal) :
  -2 <= exponent v -> round_half_even (value v * (100 # 1)) = hundredths v.
Proof.
  intros He. unfold round_half_even, hundredths.
  rewrite scaled_num, scaled_den.
  destruct (Z.leb_spec 0 (exponent v)) as [H|H].
  - rewrite Z.pow_add_r by lia. change (10 ^ 2) with 100.
    rewrite <- (Z.mul_1_r (coefficient v * 10 ^ exponent v * 100)) at 1.
    rewrite div_half_even_exact by lia. ring.
  - assert (E : exponent v = -1 \/ exponent v = -2) by lia.
    destruct E as [-> | ->].
    + change (10 ^ (- -1)) with 10. change (10 ^ (-1 + 2)) with 10.
      replace (coefficient v * 100) with (coefficient v * 10 * 10) by ring.
      apply div_half_even_exact. lia.
    + change (10 ^ (- -2)) with 100. change (10 ^ (-2 + 2)) with 1.
      rewrite Z.mul_1_r. apply div_half_even_exact. lia.
Qed.

Lemma truncate_two_places (v : Decimal) :
  -2 <= exponent v -> truncate (value v * (100 # 1)) = hundredths v.
Proof.
  intros He. unfold truncate, hundredths.
  rewrite scaled_num, scaled_den.
  destruct (Z.leb_spec 0 (exponent v)) as [H|H].
  - rewrite Z.pow_add_r by lia. change (10 ^ 2) with 100.
    rewrite Z.quot_1_r. ring.
  - assert (E : exponent v = -1 \/ exponent v = -2) by lia.
    destruct E as [-> | ->].
    + change (10 ^ (- -1)) with 10. change (10 ^ (-1 + 2)) with 10.
      replace (coefficient v * 100) with (coefficient v * 10 * 10) by ring.
      apply Z.quot_mul. lia.
    + change (10 ^ (- -2)) with 100. change (10 ^ (-2 + 2)) with 1.
      rewrite Z.mul_1_r. apply Z.quot_mul. lia.
Qed.

(** A speed with at most two decimal places whose hundredths fit 16 bits
    is scaled exactly. *)
Lemma target_speed_two_places (v : Decimal) :
  -2 <= exponent v -> 0 <= hundredths v <= 65535 ->
  target_speed_of v = Returned (hundredths v).
Proof.
  intros He Hr. unfold hundredths in Hr.
  assert (Hp : 1 <= 10 ^ (exponent v + 2)) by (apply Z.lt_pred_le, Z.pow_pos_nonneg; lia).
  assert (Hc : Z.abs (coefficient v) < 10 ^ 26).
  { assert (0 <= coefficient v <= 65535) by nia.
    change (10 ^ 26) with 100000000000000000000000000. lia. }
  unfold target_speed_of, mul_int.
  rewrite fix_prec_short.
  2:{ cbn [coefficient]. unfold prec. change (10 ^ 28) with (10 ^ 26 * 100). lia. }
  cbn [coefficient exponent].
  assert (Hd : ndigits (Z.abs (coefficient v * 100)) <= 28).
  { apply ndigits_le; [lia|]. change (10 ^ 28) with (10 ^ 26 * 100). lia. }
  assert (Hov : (negb (coefficient v * 100 =? 0)
                 && (Emax <? exponent v + ndigits (Z.abs (coefficient v * 100)) - 1)) = false).
  { destruct (Z.eqb_spec (coefficient v * 100) 0) as [Hz|Hz]; [reflexivity|].
    cbn [negb andb]. apply Z.ltb_ge.
    assert (exponent v + 2 < 5).
    { destruct (Z.lt_ge_cases (exponent v + 2) 5) as [|Hge]; [assumption|exfalso].
      assert (10 ^ 5 <= 10 ^ (exponent v + 2)) by (apply Z.pow_le_mono_r; lia).
      change (10 ^ 5) with 100000 in *. nia. }
    unfold Emax. lia. }
  rewrite Hov. f_equal.
  pose proof (target_speed_truncates v) as T.
  unfold target_speed_of, mul_int in T.
  rewrite fix_prec_short in T.
  2:{ cbn [coefficient]. unfold prec. change (10 ^ 28) with (10 ^ 26 * 100). lia. }
  cbn [coefficient exponent] in T. rewrite Hov in T.
  rewrite (T _ Hc eq_refl). apply truncate_two_places. exact He.
Qed.

(* ================================================================== *)
(** ** Traces *)

Lemma actions_app (tr1 tr2 : list (Z * event)) :
  actions (tr1 ++ tr2) = actions tr1 ++ actions tr2.
Proof. apply flat_map_app. Qed.

Lemma actions_stamps (t : Z) (calls : list (Z * concurrent_call)) :
  actions (map (stamp t) calls) = [].
Proof. induction calls as [|oc calls IH]; [reflexivity|exact IH]. Qed.

(* ================================================================== *)
(** ** The effect of each coroutine *)

Lemma interleave_all (calls : list (Z * concurrent_call)) (st : state) :
  fold_left interleave calls st =
  mkState (flag_after calls (stop_event st)) (telemetry_queue st) (now st)
          (suspensions st) (trace st ++ map (stamp (now st)) calls).
Proof.
  revert st. induction calls as [|oc calls IH]; intros st.
  - simpl. rewrite app_nil_r. destruct st; reflexivity.
  - cbn [fold_left]. rewrite IH. unfold flag_after. cbn [fold_left].
    unfold interleave at 2 3 4 5. cbn [stop_event telemetry_queue now suspensions trace].
    rewrite <- app_assoc. reflexivity.
Qed.

Section Effects.

Variable env : environment.

Lemma suspend_effect (seconds : Z) (st : state) :
  suspend env seconds st =
  let calls := concurrent env (suspensions st) in
  (Returned tt,
   mkState (flag_after calls (stop_event st)) (telemetry_queue st)
           (now st + Z.max 0 seconds) (S (suspensions st))
           (trace st ++ map (stamp (now st)) calls)).
Proof. unfold suspend. rewrite interleave_all. reflexivity. Qed.

Lemma sleep_effect (seconds : Z) (st : state) :
  sleep env seconds st =
  let calls := concurrent env (suspensions st) in
  (Returned tt,
   mkState (flag_after calls (stop_event st)) (telemetry_queue st)
           (now st + Z.max 0 seconds) (S (suspensions st))
           (trace st ++ (now st, Sleep seconds) :: map (stamp (now st)) calls)).
Proof.
  unfold sleep, bind, log. rewrite suspend_effect.
  cbn [stop_event telemetry_queue now suspensions trace].
  rewrite <- app_assoc. reflexivity.
Qed.

Lemma write_command_effect (command : list byte) (st : state) :
  _write_command env command st =
  let calls := concurrent env (suspensions st) in
  let ok := write_acknowledged env (suspensions st) in
  (Returned tt,
   mkState (flag_after calls (stop_event st)) (telemetry_queue st)
           (now st) (S (suspensions st))
           (trace st ++ (now st, WriteGatt command ok)
              :: map (stamp (now st)) calls
              ++ (if ok then [] else [(now st, PrintFailed command)]))).
Proof.
  unfold _write_command, bind, log. rewrite suspend_effect.
  cbn [stop_event telemetry_queue now suspensions trace].
  change (Z.max 0 0) with 0. rewrite Z.add_0_r.
  destruct (write_acknowledged env (suspensions st)).
  - unfold ret. rewrite app_nil_r, <- app_assoc. reflexivity.
  - cbn [stop_event telemetry_queue now suspensions trace].
    rewrite <- !app_assoc. reflexivity.
Qed.

End Effects.

Section Coroutines.

Variable env : environment.

(** Setting or clearing the event and then writing a command: the
    shape of [start], [_pause] and [stop]. *)
Lemma flagged_write_effect (b : bool) (command : list byte) (st : state) :
  (set_flag b ;; _write_command env command) st =
  let calls := concurrent env (suspensions st) in
  let ok := write_acknowledged env (suspensions st) in
  (Returned tt,
   mkState (flag_after calls b) (telemetry_queue st)
           (now st) (S (suspensions st))
           (trace st ++ (now st, WriteGatt command ok)
              :: map (stamp (now st)) calls
              ++ (if ok then [] else [(now st, PrintFailed command)]))).
Proof.
  unfold bind, set_flag. rewrite write_command_effect. reflexivity.
Qed.

Lemma set_speed_returned (v : Decimal) (command : list byte) (st : state) :
  set_speed_command v = Returned command ->
  set_speed env v st = _write_command env command st.
Proof. intros H. unfold set_speed, bind, lift. rewrite H. reflexivity. Qed.

Lemma set_speed_raised (v : Decimal) (e : exception) (st : state) :
  set_speed_command v = Raised e ->
  set_speed env v st = (Raised e, st).
Proof. intros H. unfold set_speed, bind, lift. rewrite H. reflexivity. Qed.

Lemma workout_loop_break (intervals : list (Decimal * Z)) (st : state) :
  stop_event st = true -> workout_loop env intervals st = (Returned tt, st).
Proof.
  intros H. destruct intervals as [|iv rest]; cbn [workout_loop].
  - reflexivity.
  - rewrite H. reflexivity.
Qed.

Lemma workout_loop_step (v : Decimal) (d : Z) (rest : list (Decimal * Z))
      (command : list byte) (st : state) :
  stop_event st = false ->
  set_speed_command v = Returned command ->
  workout_loop env ((v, d) :: rest) st =
  workout_loop env rest
    (snd (sleep env d (snd (_write_command env command st)))).
Proof.
  intros Hf Hc. cbn [workout_loop]. rewrite Hf.
  unfold bind at 1. rewrite (set_speed_returned _ _ _ Hc).
  rewrite write_command_effect. cbn [snd].
  unfold bind at 1. rewrite sleep_effect. reflexivity.
Qed.

Lemma workout_loop_raise (v : Decimal) (d : Z) (rest : list (Decimal * Z))
      (e : exception) (st : state) :
  stop_event st = false ->
  set_speed_command v = Raised e ->
  workout_loop env ((v, d) :: rest) st = (Raised e, st).
Proof.
  intros Hf Hc. cbn [workout_loop]. rewrite Hf.
  unfold bind at 1. rewrite (set_speed_raised _ _ _ Hc). reflexivity.
Qed.

(** Running the loop over a list is running it over a prefix and then
    over the rest: a [break] in the prefix leaves the event set, and the
    loop over the rest then stops at its first check. *)
Lemma workout_loop_app (pre post : list (Decimal * Z)) (st : state) :
  workout_loop env (pre ++ post) st =
  (workout_loop env pre ;; workout_loop env post) st.
Proof.
  revert st. induction pre as [|[v d] pre IH]; intros st.
  - reflexivity.
  - cbn [app]. destruct (stop_event st) eqn:Hf.
    + rewrite workout_loop_break by exact Hf.
      unfold bind. rewrite workout_loop_break by exact Hf.
      rewrite workout_loop_break by exact Hf. reflexivity.
    + destruct (set_speed_command v) as [command|e] eqn:Hc.
      * rewrite (workout_loop_step _ _ _ _ _ Hf Hc), IH.
        unfold bind. rewrite (workout_loop_step _ _ _ _ _ Hf Hc). reflexivity.
      * rewrite (workout_loop_raise _ _ _ _ _ Hf Hc).
        unfold bind. rewrite (workout_loop_raise _ _ _ _ _ Hf Hc). reflexivity.
Qed.

(** With no other task about and every speed encodable, the loop runs
    through all its intervals, whatever the client answers. *)
Lemma workout_loop_quiet (intervals : list (Decimal * Z)) (st : state) :
  quiet env ->
  forallb (fun iv => encodable (fst iv)) intervals = true ->
  stop_event st = false ->
  exists st',
    workout_loop env intervals st = (Returned tt, st') /\
    stop_event st' = false /\
    telemetry_queue st' = telemetry_queue st /\
    actions (trace st') =
      actions (trace st) ++ map observed (interval_steps intervals).
Proof.
  intros Hq. revert st.
  induction intervals as [|[v d] rest IH]; intros st Henc Hf.
  - exists st. cbn. rewrite app_nil_r. auto.
  - cbn [forallb fst] in Henc. apply andb_true_iff in Henc as [Hv Hrest].
    unfold encodable in Hv.
    destruct (set_speed_command v) as [command|e] eqn:Hc; [|discriminate].
    rewrite (workout_loop_step _ _ _ _ _ Hf Hc).
    rewrite write_command_effect. cbn [snd].
    rewrite sleep_effect.
    cbn [snd stop_event telemetry_queue now suspensions trace].
    rewrite !Hq. cbn [map flag_after fold_left app].
    match goal with |- context [workout_loop env rest ?s] =>
      destruct (IH s Hrest Hf) as (st' & Hrun & Hf' & Hq' & Ha)
    end.
    exists st'. split; [exact Hrun|]. split; [exact Hf'|]. split; [exact Hq'|].
    rewrite Ha. cbn [trace].
    rewrite <- !app_assoc, !actions_app.
    unfold interval_steps. cbn [flat_map map app fst snd observed].
    unfold wire_bytes. cbn [wire]. rewrite Hc.
    rewrite <- !app_assoc. f_equal.
    destruct (write_acknowledged env (suspensions st)); reflexivity.
Qed.

Lemma start_workout_quiet (intervals : list (Decimal * Z)) (st : state) :
  quiet env ->
  forallb (fun iv => encodable (fst iv)) intervals = true ->
  exists st',
    start_workout env intervals st = (Returned tt, st') /\
    stop_event st' = true /\
    telemetry_queue st' = telemetry_queue st /\
    actions (trace st') = actions (trace st) ++ map observed (plan intervals).
Proof.
  intros Hq Henc. unfold start_workout.
  unfold bind at 1. unfold start. rewrite flagged_write_effect. cbn zeta.
  unfold bind at 1. rewrite sleep_effect.
  cbn [stop_event telemetry_queue now suspensions trace].
  rewrite !Hq. cbn [map flag_after fold_left app].
  unfold bind at 1.
  match goal with |- context [workout_loop env intervals ?s] =>
    destruct (workout_loop_quiet intervals s Hq Henc eq_refl)
      as (st1 & Hrun & Hf1 & Hq1 & Ha1)
  end.
  rewrite Hrun. unfold _pause. rewrite flagged_write_effect. cbn zeta.
  eexists. split; [reflexivity|].
  cbn [stop_event telemetry_queue now suspensions trace].
  rewrite !Hq. cbn [map flag_after fold_left app].
  split; [reflexivity|]. split; [exact Hq1|].
  rewrite actions_app, Ha1. cbn [trace].
  rewrite <- !app_assoc, !actions_app.
  unfold plan. rewrite !map_app.
  rewrite <- !app_assoc. f_equal.
  destruct (write_acknowledged env (suspensions st));
    destruct (write_acknowledged env (suspensions st1)); reflexivity.
Qed.

End Coroutines.

Lemma forall_from_spec (p : Z -> bool) (count : nat) (start z : Z) :
  forall_from start count p = true ->
  start <= z < start + Z.of_nat count -> p z = true.
Proof.
  revert start. induction count as [|c IH]; intros start H Hz.
  - simpl in Hz. lia.
  - cbn [forall_from] in H. apply andb_true_iff in H as [H0 H1].
    destruct (Z.eq_dec z start) as [->|Hne]; [exact H0|].
    apply (IH (start + 1)); [exact H1|lia].
Qed.

Lemma quotients_checked :
  forall_from 0 (Z.to_nat 65536)
    (fun n => quotient_accurate n
              && Bool.eqb (quotient_exact n) (n mod 25 =? 0)) = true.
Proof. vm_compute. reflexivity. Qed.

Lemma quotient_within_rounding (n : Z) :
  0 <= n <= 65535 ->
  exists q : Q,
    float_value (truediv n 100) = Some q /\
    (Qabs (q - (n # 100)) <= (n # 100) * (1 # 2 ^ 53))%Q /\
    ((q == n # 100)%Q <-> n mod 25 = 0).
Proof.
  intros Hn.
  pose proof (forall_from_spec _ _ 0 n quotients_checked) as H.
  rewrite Z2Nat.id in H by lia. specialize (H ltac:(lia)).
  apply andb_true_iff in H as [Ha He].
  unfold quotient_accurate in Ha. unfold quotient_exact in He.
  destruct (float_value (truediv n 100)) as [q|]; [|discriminate].
  exists q. split; [reflexivity|]. split.
  - apply Qle_bool_iff. exact Ha.
  - apply Bool.eqb_prop in He. rewrite <- Qeq_bool_iff, He. apply Z.eqb_eq.
Qed.

Lemma quotients_nearest_checked :
  forall_from 0 (Z.to_nat 65536) quotient_nearest = true.
Proof. vm_compute. reflexivity. Qed.

Lemma quotient_is_nearest (n : Z) :
  0 <= n <= 65535 -> nearest_binary64 (n # 100) (truediv n 100).
Proof.
  intros Hn.
  pose proof (forall_from_spec _ _ 0 n quotients_nearest_checked) as H.
  rewrite Z2Nat.id in H by lia. specialize (H ltac:(lia)).
  unfold quotient_nearest in H. cbv zeta in H. unfold nearest_binary64.
  destruct (float_value (truediv n 100)) as [q|]; [|discriminate].
  destruct (float_value (next_up (truediv n 100))) as [above|]; [|discriminate].
  destruct (float_value (next_down (truediv n 100))) as [below|]; [|discriminate].
  apply andb_true_iff in H as [Ha Hb].
  exists q, above, below. repeat split; try reflexivity.
  - apply Qle_bool_iff. exact Ha.
  - apply Qle_bool_iff. exact Hb.
Qed.

Lemma nearest_binary64_ext (x y : Q) (f : float) :
  (x == y)%Q -> nearest_binary64 x f -> nearest_binary64 y f.
Proof.
  intros E (q & above & below & Hq & Ha & Hb & Hqa & Hqb).
  exists q, above, below. repeat split; try assumption.
  - rewrite <- E. exact Hqa.
  - rewrite <- E. exact Hqb.
Qed.

(* ================================================================== *)
(** ** The command codec *)

Lemma set_speed_command_in_range (v : Decimal) (n : Z) :
  target_speed_of v = Returned n -> 0 <= n <= 65535 ->
  set_speed_command v = Returned ([x02] ++ le_digits 2 n).
Proof.
  intros Ht Hn. unfold set_speed_command. rewrite Ht.
  rewrite to_bytes_in_range; [reflexivity|].
  change (256 ^ Z.of_nat 2) with 65536. lia.
Qed.

Lemma set_speed_command_out_of_range (v : Decimal) (n : Z) :
  target_speed_of v = Returned n -> n < 0 \/ 65535 < n ->
  set_speed_command v = Raised OverflowError.
Proof.
  intros Ht Hn. unfold set_speed_command. rewrite Ht.
  rewrite to_bytes_out_of_range; [reflexivity|].
  change (256 ^ Z.of_nat 2) with 65536. lia.
Qed.

Lemma issue_sends (env : environment) (c : Command) (bs : list byte)
      (st : state) :
  wire c = Returned bs ->
  actions (trace (snd (issue env c st))) = actions (trace st) ++ [Sent bs].
Proof.
  intros Hw.
  assert (W : forall b st0,
             actions (trace (snd ((set_flag b ;; _write_command env bs) st0)))
             = actions (trace st0) ++ [Sent bs]).
  { intros b st0. rewrite flagged_write_effect. cbn [snd trace].
    rewrite actions_app. f_equal.
    change ((now st0, WriteGatt bs (write_acknowledged env (suspensions st0)))
              :: ?l) with ([(now st0, WriteGatt bs (write_acknowledged env (suspensions st0)))] ++ l).
    rewrite !actions_app, actions_stamps.
    destruct (write_acknowledged env (suspensions st0)); reflexivity. }
  destruct c as [| | |v]; cbn [wire issue] in *.
  - injection Hw as <-. apply W.
  - injection Hw as <-. apply W.
  - injection Hw as <-. apply W.
  - rewrite (set_speed_returned env v bs st Hw).
    specialize (W (stop_event st) st).
    unfold bind, set_flag in W. destruct st; exact W.
Qed.

(** C1, as corrected.  The command handed to the client is [[0x07]] for
    [start], [[0x08, 0x02]] for [_pause], [[0x08, 0x01]] for [stop], and
    for [set_speed(v)] with [n = int(v * 100)] in [0, 65535] it is [0x02]
    followed by the two bytes of [n], low byte first.  When [v] has at
    most 26 significant digits the product is exact (the 28-digit context
    leaves it alone) and [n] is the product truncated towards zero, not
    rounded.  A longer [v] gives a product that the context first rounds
    to 28 digits: [n] is then the truncation of the exact product or one
    more, as for [Decimal("2.9999999999999999999999999995")], sent as 300.
    For a speed of at most two decimal places the product is an integer,
    truncation and rounding agree, and the command is the one the
    specification names.
    [set_speed(Decimal("3.00"))] writes [[0x02, 0x2C, 0x01]]. *)
Theorem encode_wire_bytes (v : Decimal) (n : Z) :
  target_speed_of v = Returned n ->
  0 <= n <= 65535 ->
  wire Start = Returned [x07] /\
  wire Pause = Returned [x08; x02] /\
  wire Stop = Returned [x08; x01] /\
  wire (SetSpeed v) = Returned ([x02] ++ le_digits 2 n) /\
  from_bytes (le_digits 2 n) = n /\
  (Z.abs (coefficient v) < 10 ^ 26 -> n = truncate (value v * (100 # 1))) /\
  (-2 <= exponent v -> 0 <= hundredths v <= 65535 ->
   n = round_half_even (value v * (100 # 1)) /\
   wire (SetSpeed v) = Returned (spec_encode (SetSpeed v))) /\
  wire (SetSpeed speed_3_00) = Returned [x02; x2c; x01] /\
  (forall env st c bs,
      wire c = Returned bs ->
      actions (trace (snd (issue env c st))) = actions (trace st) ++ [Sent bs]) /\
  truncate (value v * (100 # 1)) <= n <= truncate (value v * (100 # 1)) + 1 /\
  target_speed_of speed_29_digits = Returned 300 /\
  truncate (value speed_29_digits * (100 # 1)) = 299.
Proof.
  intros Ht Hn.
  assert (Hw : wire (SetSpeed v) = Returned ([x02] ++ le_digits 2 n))
    by (apply set_speed_command_in_range; assumption).
  split; [reflexivity|]. split; [reflexivity|]. split; [reflexivity|].
  split; [exact Hw|].
  split; [|split; [|split; [|split; [|split; [|split; [|split]]]]]].
  - apply from_bytes_le_digits. change (256 ^ Z.of_nat 2) with 65536. lia.
  - intros Hc. apply target_speed_truncates; assumption.
  - intros He Hr.
    pose proof (target_speed_two_places v He Hr) as T.
    assert (E : n = hundredths v) by congruence.
    rewrite Hw. cbn [spec_encode].
    rewrite round_two_places by exact He. rewrite E. split; reflexivity.
  - reflexivity.
  - intros env st c bs. apply issue_sends.
  - apply target_speed_near_truncation; assumption.
  - vm_compute. reflexivity.
  - vm_compute. reflexivity.
Qed.

Lemma encode_wire_bytes_witness :
  wire (SetSpeed speed_3_00) = Returned ([x02] ++ le_digits 2 300).
Proof.
  refine (proj1 (proj2 (proj2 (proj2 (encode_wire_bytes speed_3_00 300 _ _))))).
  - reflexivity.
  - lia.
Defined.

(** C1 as stated fails: [Decimal("2.999")] scales to 299.9, which
    [int] truncates to 299 where rounding gives 300. *)
Lemma encode_rounds_counterexample :
  target_speed_of speed_2_999 = Returned 299 /\
  wire (SetSpeed speed_2_999) = Returned [x02; x2b; x01] /\
  round_half_even (value speed_2_999 * (100 # 1)) = 300 /\
  spec_encode (SetSpeed speed_2_999) = [x02; x2c; x01] /\
  wire (SetSpeed speed_2_999) <> Returned (spec_encode (SetSpeed speed_2_999)).
Proof.
  repeat split; try reflexivity. vm_compute. discriminate.
Qed.

(** C10.  When [int(speed * 100)] is negative or above 65535,
    [to_bytes] raises [OverflowError]; [set_speed] raises it before it
    reaches [_write_command], so the state (trace, event, queue) is what
    it was, and no command bytes exist, wrapped or clamped. *)
Theorem set_speed_out_of_range_raises (env : environment) (v : Decimal)
        (n : Z) (st : state) :
  target_speed_of v = Returned n ->
  n < 0 \/ 65535 < n ->
  set_speed env v st = (Raised OverflowError, st) /\
  (forall bs, set_speed_command v <> Returned bs).
Proof.
  intros Ht Hn.
  pose proof (set_speed_command_out_of_range v n Ht Hn) as Hc.
  split.
  - apply set_speed_raised. exact Hc.
  - intros bs. rewrite Hc. discriminate.
Qed.

Lemma set_speed_out_of_range_raises_witness :
  set_speed calm speed_700 (init []) = (Raised OverflowError, init []) /\
  (forall bs, set_speed_command speed_700 <> Returned bs).
Proof.
  apply (set_speed_out_of_range_raises calm speed_700 70000 (init [])).
  - reflexivity.
  - right. lia.
Defined.

(* ================================================================== *)
(** ** Telemetry decoding *)

Lemma from_bytes_zeros (k : nat) : from_bytes (repeat x00 k) = 0.
Proof.
  induction k as [|k IH]; [reflexivity|].
  cbn [repeat from_bytes]. rewrite IH. reflexivity.
Qed.

Lemma from_bytes_app (bs cs : list byte) :
  from_bytes (bs ++ cs) = from_bytes bs + 256 ^ Z.of_nat (length bs) * from_bytes cs.
Proof.
  induction bs as [|b bs IH].
  - cbn. destruct (from_bytes cs); reflexivity.
  - cbn [app from_bytes length]. rewrite IH, Nat2Z.inj_succ, Z.pow_succ_r by lia.
    ring.
Qed.

Lemma skipn_zeros (n k : nat) : skipn n (repeat x00 k) = repeat x00 (k - n).
Proof.
  revert k. induction n as [|n IH]; intros k.
  - rewrite Nat.sub_0_r. reflexivity.
  - destruct k as [|k]; [reflexivity|]. cbn [repeat skipn Nat.sub]. apply IH.
Qed.

Lemma firstn_zeros (n k : nat) :
  firstn n (repeat x00 k) = repeat x00 (Nat.min n k).
Proof.
  revert k. induction n as [|n IH]; intros k.
  - reflexivity.
  - destruct k as [|k]; [reflexivity|].
    cbn [repeat firstn Nat.min]. rewrite IH. reflexivity.
Qed.

(** A slice of a string padded with zero bytes denotes the same integer
    as the slice of the string itself. *)
Lemma from_bytes_slice_padded (lo hi k : nat) (data : list byte) :
  from_bytes (slice lo hi (data ++ repeat x00 k)) = from_bytes (slice lo hi data).
Proof.
  unfold slice.
  rewrite skipn_app, skipn_zeros, firstn_app, firstn_zeros.
  rewrite from_bytes_app, from_bytes_zeros. lia.
Qed.

Lemma decode_padded (k : nat) (data : list byte) :
  decode (data ++ repeat x00 k) = decode data.
Proof.
  unfold decode. rewrite !from_bytes_slice_padded. reflexivity.
Qed.

(** C2.  For a frame of at least 19 bytes, [speed] is the integer held
    low byte first in bytes 2 and 3, divided by 100 (in binary64, within
    one rounding of the exact quotient); [distance] is the integer in
    bytes 4 to 10, [calories] the one in bytes 11 and 12, [time] the one
    in bytes 17 and 18.  The frame of the specification's example decodes
    to speed 3.0, distance 10, calories 5 and time 60, whatever its
    unread bytes are. *)
Theorem decode_reads_fixed_fields (data : list byte) :
  (19 <= length data)%nat ->
  let b := fun i => byte_val (nth i data x00) in
  let raw := b 2%nat + 256 * b 3%nat in
  speed (decode data) = truediv raw 100 /\
  (exists q : Q,
      float_value (speed (decode data)) = Some q /\
      (Qabs (q - (raw # 100)) <= (raw # 100) * (1 # 2 ^ 53))%Q) /\
  distance (decode data) =
    b 4%nat + 256 * (b 5%nat + 256 * (b 6%nat + 256 * (b 7%nat
      + 256 * (b 8%nat + 256 * (b 9%nat + 256 * b 10%nat))))) /\
  calories (decode data) = b 11%nat + 256 * b 12%nat /\
  time (decode data) = b 17%nat + 256 * b 18%nat /\
  (forall b0 b1 b13 b14 b15 b16 rest,
      decode ([b0; b1; x2c; x01; x0a; x00; x00; x00; x00; x00; x00;
               x05; x00; b13; b14; b15; b16; x3c; x00] ++ rest)
      = mkMetrics 3 10 5 60).
Proof.
  intros Hlen.
  do 19 (destruct data as [|? data]; [cbn [length] in Hlen; lia|]).
  clear Hlen. cbv zeta.
  unfold decode, slice.
  cbn [Nat.sub firstn skipn from_bytes nth speed distance calories time].
  rewrite !Z.mul_0_r, !Z.add_0_r.
  split; [reflexivity|]. split.
  - match goal with |- context [truediv ?r 100] =>
      destruct (quotient_within_rounding r) as (q & Hq & Hacc & _)
    end.
    + match goal with |- 0 <= byte_val ?x + 256 * byte_val ?y <= 65535 =>
        pose proof (byte_val_range x); pose proof (byte_val_range y); lia
      end.
    + exists q. split; assumption.
  - repeat split; reflexivity.
Qed.

Lemma decode_reads_fixed_fields_witness :
  speed (decode (frame_with_speed x2c x01)) = 3%float.
Proof.
  refine (eq_trans
            (proj1 (decode_reads_fixed_fields (frame_with_speed x2c x01) _)) _).
  - cbn. lia.
  - reflexivity.
Defined.

(** C3, as corrected.  [_notification_handler] has no length check and
    slicing does not raise: for a frame shorter than 19 bytes it returns
    normally and puts one sample on the queue, the sample of the frame
    padded with zero bytes to 19 bytes; the event and the trace are
    untouched. *)
Theorem short_frame_is_decoded (data : list byte) (st : state) :
  (length data < 19)%nat ->
  _notification_handler data st =
  (Returned tt,
   mkState (stop_event st)
           (telemetry_queue st
              ++ [decode (data ++ repeat x00 (19 - length data))])
           (now st) (suspensions st) (trace st)).
Proof.
  intros _. unfold _notification_handler, put.
  rewrite decode_padded. reflexivity.
Qed.

Lemma short_frame_is_decoded_witness :
  _notification_handler [x00; x00; x32] (init []) =
  (Returned tt, mkState false [mkMetrics 0.5 0 0 0] 0 0 []).
Proof.
  refine (eq_trans (short_frame_is_decoded [x00; x00; x32] (init []) _) _).
  - cbn. lia.
  - reflexivity.
Defined.

(** C3 as stated fails: the empty frame raises nothing and a sample of
    zeros is put on the queue. *)
Lemma short_frame_counterexample :
  _notification_handler [] (init []) =
  (Returned tt, mkState false [mkMetrics 0 0 0 0] 0 0 []).
Proof. reflexivity. Qed.

(* ================================================================== *)
(** ** The speed field, there and back *)

Lemma value_hundredths (v : Decimal) :
  -2 <= exponent v -> (value v == hundredths v # 100)%Q.
Proof.
  intros He. unfold value, hundredths, Qeq.
  destruct (Z.leb_spec 0 (exponent v)) as [H|H].
  - cbn [Qnum Qden inject_Z]. rewrite Z.pow_add_r by lia.
    change (10 ^ 2) with 100. change (Z.pos 100) with 100. lia.
  - assert (E : exponent v = -1 \/ exponent v = -2) by lia.
    destruct E as [-> | ->]; cbn; lia.
Qed.

(** C7, as corrected.  For a speed [v] of at most two decimal places in
    [0, 655.35], [set_speed] sends [0x02] and two bytes; a frame carrying
    these two bytes at offsets 2 and 3 decodes to the raw integer
    [v * 100] exactly, and to a [speed] that is that integer divided by
    100 in binary64: a binary64 number nearest to [v], within relative
    error [2^-53] of it, and equal to [v] exactly when [v * 100] is a
    multiple of 25. *)
Theorem speed_field_round_trip (v : Decimal) :
  -2 <= exponent v ->
  0 <= hundredths v <= 65535 ->
  exists lo hi : byte,
    set_speed_command v = Returned [x02; lo; hi] /\
    forall (b0 b1 : byte) (tail : list byte),
      from_bytes (slice 2 4 ([b0; b1; lo; hi] ++ tail)) = hundredths v /\
      speed (decode ([b0; b1; lo; hi] ++ tail)) = truediv (hundredths v) 100 /\
      nearest_binary64 (value v) (speed (decode ([b0; b1; lo; hi] ++ tail))) /\
      exists q : Q,
        float_value (speed (decode ([b0; b1; lo; hi] ++ tail))) = Some q /\
        (Qabs (q - value v) <= value v * (1 # 2 ^ 53))%Q /\
        ((q == value v)%Q <-> hundredths v mod 25 = 0).
Proof.
  intros He Hr.
  pose proof (target_speed_two_places v He Hr) as Ht.
  pose proof (set_speed_command_in_range v _ Ht Hr) as Hc.
  cbn [le_digits app] in Hc.
  eexists _, _. split; [exact Hc|].
  intros b0 b1 tail.
  assert (Hraw : from_bytes (slice 2 4 ([b0; b1;
                   byte_of (hundredths v mod 256);
                   byte_of (hundredths v / 256 mod 256)] ++ tail))
                 = hundredths v).
  { unfold slice. cbn [Nat.sub app skipn firstn].
    change [byte_of (hundredths v mod 256); byte_of (hundredths v / 256 mod 256)]
      with (le_digits 2 (hundredths v)).
    apply from_bytes_le_digits. change (256 ^ Z.of_nat 2) with 65536. lia. }
  split; [exact Hraw|].
  assert (Hs : speed (decode ([b0; b1;
                   byte_of (hundredths v mod 256);
                   byte_of (hundredths v / 256 mod 256)] ++ tail))
               = truediv (hundredths v) 100).
  { unfold decode. cbn [speed]. rewrite Hraw. reflexivity. }
  split; [exact Hs|].
  rewrite Hs. split.
  - apply (nearest_binary64_ext (hundredths v # 100)).
    + symmetry. apply value_hundredths. exact He.
    + apply quotient_is_nearest. exact Hr.
  - destruct (quotient_within_rounding (hundredths v) Hr)
      as (q & Hq & Hacc & Hex).
    exists q. split; [exact Hq|].
    rewrite (value_hundredths v He). split; assumption.
Qed.

Lemma speed_field_round_trip_witness :
  exists lo hi : byte,
    set_speed_command speed_3_00 = Returned [x02; lo; hi] /\
    forall (b0 b1 : byte) (tail : list byte),
      from_bytes (slice 2 4 ([b0; b1; lo; hi] ++ tail)) = hundredths speed_3_00 /\
      speed (decode ([b0; b1; lo; hi] ++ tail))
        = truediv (hundredths speed_3_00) 100 /\
      nearest_binary64 (value speed_3_00)
                       (speed (decode ([b0; b1; lo; hi] ++ tail))) /\
      exists q : Q,
        float_value (speed (decode ([b0; b1; lo; hi] ++ tail))) = Some q /\
        (Qabs (q - value speed_3_00) <= value speed_3_00 * (1 # 2 ^ 53))%Q /\
        ((q == value speed_3_00)%Q <-> hundredths speed_3_00 mod 25 = 0).
Proof.
  apply (speed_field_round_trip speed_3_00).
  - cbn. lia.
  - cbn. lia.
Defined.

(** C7 as stated fails: [Decimal("0.29")] is sent as 29, and 29 / 100 in
    binary64 is 5224175567749775 / 2^54, which is not 0.29. *)
Lemma speed_round_trip_counterexample :
  set_speed_command speed_0_29 = Returned [x02; x1d; x00] /\
  float_value (speed (decode (frame_with_speed x1d x00)))
    = Some (5224175567749775 # 18014398509481984)%Q /\
  ~ (5224175567749775 # 18014398509481984 == value speed_0_29)%Q.
Proof.
  split; [reflexivity|]. split; [reflexivity|].
  unfold Qeq. cbn. discriminate.
Qed.

(* ================================================================== *)
(** ** The interval scheduler *)




(** C5.  If the part of [start_workout] that precedes an interval (the
    start, the warm-up sleep and the loop over the earlier intervals) ends
    with the event set, the loop stops at that interval's check: the only
    thing [start_workout] still hands to the client is Pause, and it
    returns normally.  No SetSpeed is issued for that interval or for any
    later one. *)
Theorem cancelled_intervals_are_skipped (env : environment)
        (pre post : list (Decimal * Z)) (interval : Decimal * Z)
        (st st1 : state) :
  (start env ;; sleep env 5 ;; workout_loop env pre) st = (Returned tt, st1) ->
  stop_event st1 = true ->
  fst (start_workout env (pre ++ interval :: post) st) = Returned tt /\
  snd (start_workout env (pre ++ interval :: post) st) = snd (_pause env st1) /\
  actions (trace (snd (start_workout env (pre ++ interval :: post) st)))
    = actions (trace st1) ++ [Sent [x08; x02]].
Proof.
  intros Hpre Hset.
  assert (E : start_workout env (pre ++ interval :: post) st = _pause env st1).
  { unfold start_workout.
    transitivity
      (((start env ;; sleep env 5 ;; workout_loop env pre) ;;
        workout_loop env (interval :: post) ;; _pause env) st).
    - unfold bind.
      destruct (start env st) as [[[]|e] s0]; [|reflexivity].
      destruct (sleep env 5 s0) as [[[]|e] s1]; [|reflexivity].
      rewrite workout_loop_app. unfold bind.
      destruct (workout_loop env pre s1) as [[[]|e] s2]; reflexivity.
    - unfold bind at 1. rewrite Hpre.
      unfold bind. rewrite workout_loop_break by exact Hset. reflexivity. }
  rewrite E. split; [|split; [reflexivity|]].
  - unfold _pause. rewrite flagged_write_effect. reflexivity.
  - exact (issue_sends env Pause _ st1 eq_refl).
Qed.

Lemma cancelled_intervals_are_skipped_witness :
  actions (trace (snd (start_workout stop_in_first_wait
                         ([(speed_2_00, 10)] ++ (speed_3_00, 10) :: [])
                         (init []))))
    = actions (trace (snd ((start stop_in_first_wait ;;
                            sleep stop_in_first_wait 5 ;;
                            workout_loop stop_in_first_wait [(speed_2_00, 10)])
                             (init []))))
      ++ [Sent [x08; x02]].
Proof.
  refine (proj2 (proj2 (cancelled_intervals_are_skipped stop_in_first_wait
                          [(speed_2_00, 10)] [] (speed_3_00, 10) (init [])
                          (snd ((start stop_in_first_wait ;;
                                 sleep stop_in_first_wait 5 ;;
                                 workout_loop stop_in_first_wait
                                              [(speed_2_00, 10)]) (init [])))
                          _ _))).
  - vm_compute. reflexivity.
  - vm_compute. reflexivity.
Defined.

(** The scenario of the specification: [stop()] during the first
    interval's wait; the second interval's SetSpeed is never sent. *)
Example cancelled_during_first_wait :
  actions (trace (snd (start_workout stop_in_first_wait
                         [(speed_2_00, 10); (speed_3_00, 10)] (init []))))
  = [Sent [x07]; Waited 5; Sent [x02; xc8; x00]; Waited 10; Sent [x08; x02]].
Proof. vm_compute. reflexivity. Qed.

(* ================================================================== *)
(** ** The cancellation flag *)

Lemma workout_loop_keeps_flag (env : environment)
      (intervals : list (Decimal * Z)) (st : state) :
  quiet env ->
  stop_event (snd (workout_loop env intervals st)) = stop_event st.
Proof.
  intros Hq. revert st.
  induction intervals as [|[v d] rest IH]; intros st.
  - reflexivity.
  - destruct (stop_event st) eqn:Hf.
    + rewrite workout_loop_break by exact Hf. exact Hf.
    + destruct (set_speed_command v) as [command|e] eqn:Hc.
      * rewrite (workout_loop_step _ _ _ _ _ _ Hf Hc), IH.
        rewrite sleep_effect, write_command_effect.
        cbn [snd stop_event suspensions]. rewrite !Hq. exact Hf.
      * rewrite (workout_loop_raise _ _ _ _ _ _ Hf Hc). exact Hf.
Qed.

Lemma bind_returned {A B : Type} (m : M A) (k : A -> M B)
      (st st1 : state) (a : A) :
  m st = (Returned a, st1) -> bind m k st = k a st1.
Proof. intros H. unfold bind. rewrite H. reflexivity. Qed.

(** [start] and the warm-up sleep always return; what follows runs from
    the state they leave. *)
Lemma start_workout_after_warm_up (env : environment)
      (intervals : list (Decimal * Z)) (st : state) :
  start_workout env intervals st =
  (workout_loop env intervals ;; _pause env)
    (snd (sleep env 5 (snd (start env st)))).
Proof.
  assert (Hs : start env st = (Returned tt, snd (start env st))).
  { unfold start. rewrite flagged_write_effect. reflexivity. }
  assert (Hw : forall s, sleep env 5 s = (Returned tt, snd (sleep env 5 s))).
  { intros s. rewrite sleep_effect. reflexivity. }
  unfold start_workout.
  rewrite (bind_returned _ _ _ _ _ Hs), (bind_returned _ _ _ _ _ (Hw _)).
  reflexivity.
Qed.

Lemma start_workout_flag (env : environment)
      (intervals : list (Decimal * Z)) (st : state) :
  quiet env ->
  stop_event (snd (start_workout env intervals st)) =
  match fst (start_workout env intervals st) with
  | Returned _ => true
  | Raised _ => false
  end.
Proof.
  intros Hq. rewrite start_workout_after_warm_up.
  assert (Hflag : stop_event (snd (sleep env 5 (snd (start env st)))) = false).
  { rewrite sleep_effect. unfold start. rewrite flagged_write_effect.
    cbn [snd stop_event suspensions]. rewrite !Hq. reflexivity. }
  pose proof (workout_loop_keeps_flag env intervals
                (snd (sleep env 5 (snd (start env st)))) Hq) as Hk.
  rewrite Hflag in Hk. unfold bind.
  destruct (workout_loop env intervals (snd (sleep env 5 (snd (start env st)))))
    as [[[]|e] s2].
  - unfold _pause. rewrite flagged_write_effect. cbn [fst snd stop_event].
    rewrite Hq. reflexivity.
  - exact Hk.
Qed.

(** C6.  A new controller has the event unset.  With no other task
    touching the controller, [start] leaves it cleared, [_pause] and
    [stop] leave it set, and [set_speed], [_notification_handler],
    [subscribe], [_write_command], a sleep and the loop of [start_workout]
    leave it as it was.  [start_workout] is [start], the warm-up sleep,
    the loop and [_pause]: it leaves the event set when it returns and
    cleared when a [set_speed] raised.  So a call that finds the event set
    and leaves it cleared is [start], or [start_workout], which clears it
    by calling [start]. *)
Theorem only_start_clears_flag (env : environment) (c : call) (st : state) :
  quiet env ->
  (forall q, stop_event (init q) = false) /\
  stop_event (snd (perform env c st)) =
    match c with
    | CallStart => false
    | CallPause => true
    | CallStop => true
    | CallSetSpeed _ => stop_event st
    | CallNotify _ => stop_event st
    | CallSubscribe => stop_event st
    | CallStartWorkout _ =>
        match fst (perform env c st) with
        | Returned _ => true
        | Raised _ => false
        end
    end /\
  (stop_event st = true ->
   stop_event (snd (perform env c st)) = false ->
   c = CallStart \/ exists intervals, c = CallStartWorkout intervals) /\
  (forall intervals,
      start_workout env intervals
      = (start env ;; sleep env 5 ;; workout_loop env intervals ;; _pause env)) /\
  (forall seconds, stop_event (snd (sleep env seconds st)) = stop_event st) /\
  (forall intervals,
      stop_event (snd (workout_loop env intervals st)) = stop_event st) /\
  (forall command,
      stop_event (snd (_write_command env command st)) = stop_event st).
Proof.
  intros Hq.
  assert (Hperf :
    stop_event (snd (perform env c st)) =
    match c with
    | CallStart => false
    | CallPause => true
    | CallStop => true
    | CallSetSpeed _ => stop_event st
    | CallNotify _ => stop_event st
    | CallSubscribe => stop_event st
    | CallStartWorkout _ =>
        match fst (perform env c st) with
        | Returned _ => true
        | Raised _ => false
        end
    end).
  { destruct c as [| | |v|data| |intervals]; cbn [perform].
    - unfold start. rewrite flagged_write_effect. cbn. rewrite Hq. reflexivity.
    - unfold _pause. rewrite flagged_write_effect. cbn. rewrite Hq. reflexivity.
    - unfold stop. rewrite flagged_write_effect. cbn. rewrite Hq. reflexivity.
    - destruct (set_speed_command v) as [command|e] eqn:Hc.
      + rewrite (set_speed_returned _ _ _ _ Hc), write_command_effect.
        cbn. rewrite Hq. reflexivity.
      + rewrite (set_speed_raised _ _ _ _ Hc). reflexivity.
    - reflexivity.
    - unfold subscribe, bind, log. rewrite suspend_effect. cbn.
      rewrite Hq. destruct (notify_started env (suspensions st)); reflexivity.
    - apply start_workout_flag. exact Hq. }
  split; [reflexivity|]. split; [exact Hperf|]. split; [|split; [|split; [|split]]].
  - intros Hset Hclr. rewrite Hperf in Hclr.
    destruct c; try congruence; [left; reflexivity | right; eexists; reflexivity].
  - reflexivity.
  - intros seconds. rewrite sleep_effect. cbn. rewrite Hq. reflexivity.
  - intros intervals. apply workout_loop_keeps_flag. exact Hq.
  - intros command. rewrite write_command_effect. cbn. rewrite Hq. reflexivity.
Qed.

Lemma only_start_clears_flag_witness :
  stop_event (snd (perform calm CallStart stopped)) = false.
Proof.
  exact (proj1 (proj2 (only_start_clears_flag calm CallStart stopped
                         (fun k => eq_refl)))).
Defined.

(* ================================================================== *)
(** ** Waiting and cancellation *)

(** C8, as corrected.  A wait is one [asyncio.sleep] of the full
    duration, and the event is looked at only at the loop's check.  When
    another task calls [stop()] [offset] seconds into a wait of [seconds]
    seconds (the warm-up, or the wait of an interval, each followed by the
    rest of the loop and [_pause]), the run does nothing until the wait is
    over; it then skips the remaining intervals and writes Pause, so that
    its next action comes [max(0, seconds) - offset] seconds after the
    call. *)
Theorem wait_runs_to_completion (env : environment) (seconds offset : Z)
        (rest : list (Decimal * Z)) (st : state) :
  concurrent env (suspensions st) = [(offset, OtherStop)] ->
  (exists (st' : state) (ok : bool) (more : list (Z * event)),
      (sleep env seconds ;; workout_loop env rest ;; _pause env) st
        = (Returned tt, st') /\
      trace st' =
        trace st
          ++ [(now st, Sleep seconds);
              (now st + offset, Concurrent OtherStop);
              (now st + Z.max 0 seconds, WriteGatt [x08; x02] ok)]
          ++ more /\
      stop_latency
        ([(now st, Sleep seconds);
          (now st + offset, Concurrent OtherStop);
          (now st + Z.max 0 seconds, WriteGatt [x08; x02] ok)] ++ more)
        = Some (Z.max 0 seconds - offset)) /\
  (forall intervals st0,
      start_workout env intervals st0
      = (sleep env 5 ;; workout_loop env intervals ;; _pause env)
          (snd (start env st0))) /\
  (forall v command st0,
      stop_event st0 = false ->
      set_speed_command v = Returned command ->
      (workout_loop env ((v, seconds) :: rest) ;; _pause env) st0
      = (sleep env seconds ;; workout_loop env rest ;; _pause env)
          (snd (_write_command env command st0))).
Proof.
  intros Hc. split; [|split].
  - assert (Hs : sleep env seconds st = (Returned tt, snd (sleep env seconds st))).
    { rewrite sleep_effect. reflexivity. }
    rewrite (bind_returned _ _ _ _ _ Hs).
    assert (Hf : stop_event (snd (sleep env seconds st)) = true).
    { rewrite sleep_effect. cbn [snd stop_event]. rewrite Hc. reflexivity. }
    rewrite (bind_returned _ _ _ _ _ (workout_loop_break env rest _ Hf)).
    unfold _pause. rewrite flagged_write_effect. cbv zeta.
    rewrite sleep_effect. cbv zeta.
    cbn [snd stop_event telemetry_queue now suspensions trace].
    rewrite Hc. cbn [map stamp fst snd].
    eexists _, _, _. split; [reflexivity|]. split.
    + rewrite <- app_assoc. cbn [app]. reflexivity.
    + cbn [app stop_latency next_action_time]. f_equal. lia.
  - intros intervals st0.
    assert (Hs : start env st0 = (Returned tt, snd (start env st0))).
    { unfold start. rewrite flagged_write_effect. reflexivity. }
    unfold start_workout. rewrite (bind_returned _ _ _ _ _ Hs). reflexivity.
  - intros v command st0 Hf Hv.
    unfold bind at 1. rewrite (workout_loop_step _ _ _ _ _ _ Hf Hv).
    assert (Hs : forall s, sleep env seconds s
                           = (Returned tt, snd (sleep env seconds s))).
    { intros s. rewrite sleep_effect. reflexivity. }
    rewrite (bind_returned _ _ _ _ _ (Hs _)). reflexivity.
Qed.

Lemma wait_runs_to_completion_witness :
  exists (st' : state) (ok : bool) (more : list (Z * event)),
    (sleep stop_in_first_wait 10 ;;
     workout_loop stop_in_first_wait [(speed_3_00, 10)] ;;
     _pause stop_in_first_wait)
      (mkState false [] 5 3 [])
    = (Returned tt, st') /\
    trace st' =
      [] ++ [(5, Sleep 10); (5 + 1, Concurrent OtherStop);
             (5 + Z.max 0 10, WriteGatt [x08; x02] ok)] ++ more /\
    stop_latency
      ([(5, Sleep 10); (5 + 1, Concurrent OtherStop);
        (5 + Z.max 0 10, WriteGatt [x08; x02] ok)] ++ more)
    = Some (Z.max 0 10 - 1).
Proof.
  exact (proj1 (wait_runs_to_completion stop_in_first_wait 10 1
                  [(speed_3_00, 10)] (mkState false [] 5 3 []) eq_refl)).
Defined.

(** C8 as stated fails: with [stop()] called one second into a ten
    second wait, the run's next action comes nine seconds later. *)
Lemma wait_preemption_counterexample :
  stop_latency
    (trace (snd (start_workout stop_in_first_wait
                   [(speed_2_00, 10); (speed_3_00, 10)] (init []))))
  = Some 9 /\
  ~ preempted_within 1
      (trace (snd (start_workout stop_in_first_wait
                     [(speed_2_00, 10); (speed_3_00, 10)] (init [])))).
Proof.
  assert (E : stop_latency
                (trace (snd (start_workout stop_in_first_wait
                               [(speed_2_00, 10); (speed_3_00, 10)] (init []))))
              = Some 9) by (vm_compute; reflexivity).
  split; [exact E|]. unfold preempted_within. rewrite E. lia.
Qed.

(* ================================================================== *)
(** ** Write results do not steer a run *)

Section Acknowledging.

Variable env : environment.

Lemma same_run_refl (st : state) : same_run st st.
Proof. unfold same_run. auto. Qed.

Lemma write_command_same (command : list byte) (st1 st2 : state) :
  same_run st1 st2 ->
  same_run (snd (_write_command env command st1))
           (snd (_write_command (acknowledging env) command st2)).
Proof.
  intros (Hf & Hq & Hn & Hs & Ha).
  rewrite !write_command_effect. cbv zeta. unfold same_run.
  cbn [snd stop_event telemetry_queue now suspensions trace acknowledging
       concurrent write_acknowledged].
  rewrite Hf, Hq, Hn, Hs. repeat split.
  rewrite !actions_app, Ha. f_equal.
  change ((now st2, WriteGatt command ?ok) :: ?l)
    with ([(now st2, WriteGatt command ok)] ++ l).
  rewrite !actions_app, !actions_stamps.
  destruct (write_acknowledged env (suspensions st2)); reflexivity.
Qed.

Lemma sleep_same (seconds : Z) (st1 st2 : state) :
  same_run st1 st2 ->
  same_run (snd (sleep env seconds st1))
           (snd (sleep (acknowledging env) seconds st2)).
Proof.
  intros (Hf & Hq & Hn & Hs & Ha).
  rewrite !sleep_effect. cbv zeta. unfold same_run.
  cbn [snd stop_event telemetry_queue now suspensions trace acknowledging
       concurrent].
  rewrite Hf, Hq, Hn, Hs. repeat split.
  rewrite !actions_app, Ha. reflexivity.
Qed.

Lemma workout_loop_same (intervals : list (Decimal * Z)) (st1 st2 : state) :
  same_run st1 st2 ->
  fst (workout_loop env intervals st1)
    = fst (workout_loop (acknowledging env) intervals st2) /\
  same_run (snd (workout_loop env intervals st1))
           (snd (workout_loop (acknowledging env) intervals st2)).
Proof.
  revert st1 st2. induction intervals as [|[v d] rest IH]; intros st1 st2 Hsame.
  - split; [reflexivity|exact Hsame].
  - pose proof Hsame as (Hf & _).
    destruct (stop_event st1) eqn:Hf1; symmetry in Hf.
    + rewrite !workout_loop_break by assumption.
      split; [reflexivity|exact Hsame].
    + destruct (set_speed_command v) as [command|e] eqn:Hc.
      * rewrite (workout_loop_step _ _ _ _ _ _ Hf1 Hc).
        rewrite (workout_loop_step _ _ _ _ _ _ Hf Hc).
        apply IH. apply sleep_same, write_command_same. exact Hsame.
      * rewrite (workout_loop_raise _ _ _ _ _ _ Hf1 Hc).
        rewrite (workout_loop_raise _ _ _ _ _ _ Hf Hc).
        split; [reflexivity|exact Hsame].
Qed.

Lemma flagged_write_same (b : bool) (command : list byte) (st1 st2 : state) :
  same_run st1 st2 ->
  same_run (snd ((set_flag b ;; _write_command env command) st1))
           (snd ((set_flag b ;; _write_command (acknowledging env) command) st2)).
Proof.
  intros (Hf & Hq & Hn & Hs & Ha).
  unfold bind, set_flag. apply write_command_same.
  unfold same_run. cbn [stop_event telemetry_queue now suspensions trace].
  auto.
Qed.

(** A run and the run in which every write is acknowledged end alike and
    send and sleep alike. *)
Lemma start_workout_same (intervals : list (Decimal * Z)) (st : state) :
  fst (start_workout env intervals st)
    = fst (start_workout (acknowledging env) intervals st) /\
  same_run (snd (start_workout env intervals st))
           (snd (start_workout (acknowledging env) intervals st)).
Proof.
  rewrite !start_workout_after_warm_up.
  assert (H0 : same_run (snd (sleep env 5 (snd (start env st))))
                        (snd (sleep (acknowledging env) 5
                                    (snd (start (acknowledging env) st))))).
  { apply sleep_same. unfold start. apply flagged_write_same, same_run_refl. }
  destruct (workout_loop_same intervals _ _ H0) as [Ho Hs].
  unfold bind.
  destruct (workout_loop env intervals (snd (sleep env 5 (snd (start env st)))))
    as [[[]|e] s1];
    destruct (workout_loop (acknowledging env) intervals
                (snd (sleep (acknowledging env) 5
                            (snd (start (acknowledging env) st)))))
      as [[[]|e'] s2]; cbn [fst snd] in *; try discriminate.
  - split.
    + unfold _pause. rewrite !flagged_write_effect. reflexivity.
    + unfold _pause. apply flagged_write_same. exact Hs.
  - split; [exact Ho|exact Hs].
Qed.

End Acknowledging.

(* ================================================================== *)
(** ** Write failures *)

(** C9, as corrected.  When the write of a command fails (and no other
    task runs meanwhile), the coroutine returns normally, the failure is
    printed, and nothing but the trace and the suspension count changes,
    except the event as the coroutine itself has already set it: cleared
    by [start], set by [_pause] and [stop], untouched by [set_speed].  In
    the loop of [start_workout] a [set_speed] whose write fails is
    followed by the interval's sleep and by the rest of the loop, as one
    whose write succeeds.  Whatever writes fail, [start_workout] ends as
    it would with every write acknowledged and sends and sleeps the same;
    with no other task about and encodable speeds it returns normally
    having run its whole plan. *)
Theorem write_failure_is_local (env : environment) (c : Command)
        (bs : list byte) (st : state) :
  write_acknowledged env (suspensions st) = false ->
  concurrent env (suspensions st) = [] ->
  wire c = Returned bs ->
  issue env c st =
    (Returned tt,
     mkState (match c with
              | Start => false
              | Pause => true
              | Stop => true
              | SetSpeed _ => stop_event st
              end)
             (telemetry_queue st) (now st) (S (suspensions st))
             (trace st ++ [(now st, WriteGatt bs false);
                           (now st, PrintFailed bs)])) /\
  (forall v d rest command st0,
      stop_event st0 = false ->
      set_speed_command v = Returned command ->
      workout_loop env ((v, d) :: rest) st0
      = workout_loop env rest
          (snd (sleep env d (snd (_write_command env command st0))))) /\
  (forall intervals st0,
      fst (start_workout env intervals st0)
        = fst (start_workout (acknowledging env) intervals st0) /\
      same_run (snd (start_workout env intervals st0))
               (snd (start_workout (acknowledging env) intervals st0))) /\
  (forall env' intervals st0,
      quiet env' ->
      forallb (fun iv => encodable (fst iv)) intervals = true ->
      fst (start_workout env' intervals st0) = Returned tt /\
      actions (trace (snd (start_workout env' intervals st0)))
        = actions (trace st0) ++ map observed (plan intervals)).
Proof.
  intros Hfail Hq Hw. split; [|split; [|split]].
  - destruct c as [| | |v]; cbn [issue wire] in *.
    + injection Hw as <-. unfold start. rewrite flagged_write_effect.
      cbv zeta. rewrite Hfail, Hq. reflexivity.
    + injection Hw as <-. unfold _pause. rewrite flagged_write_effect.
      cbv zeta. rewrite Hfail, Hq. reflexivity.
    + injection Hw as <-. unfold stop. rewrite flagged_write_effect.
      cbv zeta. rewrite Hfail, Hq. reflexivity.
    + rewrite (set_speed_returned _ _ _ _ Hw), write_command_effect.
      cbv zeta. rewrite Hfail, Hq. reflexivity.
  - intros v d rest command st0. apply workout_loop_step.
  - intros intervals st0. apply start_workout_same.
  - intros env' intervals st0 Hq' Henc.
    destruct (start_workout_quiet env' intervals st0 Hq' Henc)
      as (st' & Hrun & _ & _ & Ha).
    rewrite Hrun. split; [reflexivity|exact Ha].
Qed.

Lemma write_failure_is_local_witness :
  issue deaf (SetSpeed speed_3_00) (init []) =
  (Returned tt,
   mkState false [] 0 1
           [(0, WriteGatt [x02; x2c; x01] false);
            (0, PrintFailed [x02; x2c; x01])]).
Proof.
  exact (proj1 (write_failure_is_local deaf (SetSpeed speed_3_00)
                  [x02; x2c; x01] (init []) eq_refl eq_refl eq_refl)).
Defined.

(** C9 as stated fails for [start]: on a controller whose event is set,
    a [start] whose write fails leaves the event cleared, though [start]
    is no cancellation request. *)
Lemma failed_start_counterexample :
  stop_event stopped = true /\
  start deaf stopped =
  (Returned tt,
   mkState false [] 0 2
           [(0, WriteGatt [x08; x01] true);
            (0, WriteGatt [x07] false);
            (0, PrintFailed [x07])]).
Proof. split; reflexivity. Qed.

(** Failed writes do not stop a workout: with every write failing, both
    intervals are still run. *)
Example workout_with_deaf_client :
  actions (trace (snd (start_workout deaf
                         [(speed_2_00, 10); (speed_3_00, 10)] (init []))))
  = [Sent [x07]; Waited 5;
     Sent [x02; xc8; x00]; Waited 10;
     Sent [x02; x2c; x01]; Waited 10;
     Sent [x08; x02]].
Proof. vm_compute. reflexivity. Qed.

(* ================================================================== *)
(** ** Which speeds [set_speed] accepts *)

Lemma quot_in_u16 (a b : Z) :
  0 < b -> (0 <= Z.quot a b <= 65535 <-> - b < a < 65536 * b).
Proof.
  intros Hb.
  pose proof (Z.quot_rem' a b) as E.
  destruct (Z.le_ge_cases 0 a) as [Ha|Ha].
  - pose proof (Z.rem_bound_pos a b Ha Hb). nia.
  - pose proof (Z.rem_bound_pos (- a) b ltac:(lia) Hb) as R.
    rewrite Z.rem_opp_l in R by lia. nia.
Qed.

Lemma value_num (v : Decimal) :
  Qnum (value v) =
  if 0 <=? exponent v then coefficient v * 10 ^ exponent v else coefficient v.
Proof. unfold value. destruct (0 <=? exponent v); reflexivity. Qed.

Lemma value_den (v : Decimal) :
  Z.pos (Qden (value v)) =
  if 0 <=? exponent v then 1 else 10 ^ (- exponent v).
Proof.
  unfold value. destruct (Z.leb_spec 0 (exponent v)) as [H|H].
  - reflexivity.
  - cbn [Qden]. rewrite Z2Pos.id; [reflexivity|]. apply Z.pow_pos_nonneg; lia.
Qed.

Lemma set_speed_command_returns (v : Decimal) (bs : list byte) :
  set_speed_command v = Returned bs ->
  exists n, target_speed_of v = Returned n /\ 0 <= n <= 65535 /\
            bs = [x02] ++ le_digits 2 n.
Proof.
  unfold set_speed_command.
  destruct (target_speed_of v) as [n|e] eqn:Ht; [|discriminate].
  unfold to_bytes. change (256 ^ Z.of_nat 2) with 65536.
  destruct (Z.ltb_spec n 0); [discriminate|].
  destruct (Z.leb_spec 65536 n); [discriminate|].
  intros [= <-]. exists n. repeat split; lia.
Qed.

(** X1.  For a speed of at most 26 significant digits, [set_speed]
    builds a command exactly when [-0.01 < v < 655.36]; every other speed
    raises.  Speeds between -0.01 and 0 are accepted (and sent as 0). *)
Theorem set_speed_accepted_range (v : Decimal) :
  Z.abs (coefficient v) < 10 ^ 26 ->
  ((exists bs, set_speed_command v = Returned bs) <->
   (- (1 # 100) < value v /\ value v < 65536 # 100)%Q).
Proof.
  intros Hc. unfold Qlt.
  rewrite value_num, value_den. cbn [Qnum Qden Qopp].
  destruct (mul_int v 100) as [r|ex] eqn:Em.
  - pose proof (mul_int_100_exact v r Hc Em) as ->.
    assert (Ht : target_speed_of v
                 = Returned (truncate (value v * (100 # 1)))).
    { assert (T : target_speed_of v
                  = Returned (to_int (mkDecimal (coefficient v * 100)
                                                (exponent v))))
        by (unfold target_speed_of; rewrite Em; reflexivity).
      rewrite T. f_equal. apply target_speed_truncates; assumption. }
    revert Ht. unfold truncate. rewrite scaled_num, scaled_den. intros Ht.
    assert (Hb : 0 < (if 0 <=? exponent v then 1 else 10 ^ (- exponent v))).
    { destruct (Z.leb_spec 0 (exponent v)); [lia|].
      apply Z.pow_pos_nonneg; lia. }
    match type of Ht with
    | _ = Returned (Z.quot ?a ?b) => pose proof (quot_in_u16 a b Hb) as Q
    end.
    split.
    + intros [bs Hbs]. apply set_speed_command_returns in Hbs.
      destruct Hbs as (n & Hn & Hr & _). rewrite Ht in Hn.
      injection Hn as <-. apply Q in Hr.
      destruct (0 <=? exponent v); lia.
    + intros Hr. eexists.
      apply (set_speed_command_in_range v _ Ht). apply Q.
      destruct (0 <=? exponent v); lia.
  - split.
    + intros [bs Hbs]. unfold set_speed_command, target_speed_of in Hbs.
      rewrite Em in Hbs. discriminate.
    + intros Hr. exfalso. revert Em. unfold mul_int.
      rewrite fix_prec_short.
      2:{ cbn [coefficient]. unfold prec.
          change (10 ^ 28) with (10 ^ 26 * 100). lia. }
      cbn [coefficient exponent].
      destruct (Z.eqb_spec (coefficient v * 100) 0) as [|Hnz];
        [discriminate|].
      destruct (Z.ltb_spec Emax
                  (exponent v + ndigits (Z.abs (coefficient v * 100)) - 1))
        as [Hov|]; [|discriminate].
      intros _.
      assert (Hd : ndigits (Z.abs (coefficient v * 100)) <= 28).
      { apply ndigits_le; [lia|].
        change (10 ^ 28) with (10 ^ 26 * 100). lia. }
      unfold Emax in Hov.
      assert (He : 3 <= exponent v) by lia.
      assert (Hp : 10 ^ 3 <= 10 ^ exponent v)
        by (apply Z.pow_le_mono_r; lia).
      change (10 ^ 3) with 1000 in Hp.
      destruct (Z.leb_spec 0 (exponent v)); [|lia].
      nia.
Qed.

Lemma set_speed_accepted_range_witness :
  exists bs, set_speed_command (mkDecimal (-5) (-3)) = Returned bs.
Proof.
  apply (set_speed_accepted_range (mkDecimal (-5) (-3))).
  - vm_compute. reflexivity.
  - split; vm_compute; reflexivity.
Defined.

(* ================================================================== *)
(** ** The commands on the wire *)

(** X2.  The bytes handed to the client tell the commands apart: two
    commands with the same bytes are of the same kind, and two speeds
    with the same bytes have the same scaled value; conversely commands
    that mean the same have the same bytes.  The bytes are 1 long for
    Start, 2 for Pause and Stop, 3 for SetSpeed. *)
Theorem wire_is_unambiguous (c1 c2 : Command) (bs : list byte) :
  wire c1 = Returned bs ->
  (wire c2 = Returned bs <-> same_command c1 c2) /\
  length bs = match c1 with
              | Start => 1%nat
              | Pause => 2%nat
              | Stop => 2%nat
              | SetSpeed _ => 3%nat
              end.
Proof.
  intros H1. split.
  - split.
    + intros H2.
      destruct c1 as [| | |v1]; destruct c2 as [| | |v2];
        cbn [wire same_command] in *;
        try exact I;
        try (rewrite <- H1 in H2; discriminate);
        try (apply set_speed_command_returns in H2;
             destruct H2 as (n & _ & _ & ->); discriminate);
        try (apply set_speed_command_returns in H1;
             destruct H1 as (n & _ & _ & ->); discriminate).
      apply set_speed_command_returns in H1, H2.
      destruct H1 as (n1 & T1 & R1 & E1), H2 as (n2 & T2 & R2 & E2).
      rewrite T1, T2. f_equal.
      assert (E : le_digits 2 n1 = le_digits 2 n2).
      { rewrite E1 in E2. apply (app_inv_head [x02]). exact E2. }
      apply (f_equal from_bytes) in E.
      rewrite !from_bytes_le_digits in E
        by (change (256 ^ Z.of_nat 2) with 65536; lia).
      exact E.
    + intros S.
      destruct c1 as [| | |v1]; destruct c2 as [| | |v2];
        cbn [wire same_command] in *; try contradiction; try exact H1.
      unfold set_speed_command in *. rewrite <- S. exact H1.
  - destruct c1 as [| | |v1]; cbn [wire] in H1;
      try (injection H1 as <-; reflexivity).
    apply set_speed_command_returns in H1.
    destruct H1 as (n & _ & _ & ->). reflexivity.
Qed.

Lemma wire_is_unambiguous_witness :
  wire (SetSpeed (mkDecimal 3 0)) = Returned [x02; x2c; x01]
  <-> same_command (SetSpeed speed_3_00) (SetSpeed (mkDecimal 3 0)).
Proof.
  exact (proj1 (wire_is_unambiguous (SetSpeed speed_3_00)
                  (SetSpeed (mkDecimal 3 0)) [x02; x2c; x01] eq_refl)).
Defined.

Lemma quot_le_cross (a1 b1 a2 b2 : Z) :
  0 < b1 -> 0 < b2 -> a1 * b2 <= a2 * b1 -> Z.quot a1 b1 <= Z.quot a2 b2.
Proof.
  intros H1 H2 H.
  pose proof (Z.quot_rem' a1 b1) as E1.
  pose proof (Z.quot_rem' a2 b2) as E2.
  set (q1 := Z.quot a1 b1) in *. set (q2 := Z.quot a2 b2) in *.
  set (r1 := Z.rem a1 b1) in *. set (r2 := Z.rem a2 b2) in *.
  assert (B1 : - b1 < r1 < b1 /\ (0 <= a1 -> 0 <= r1) /\ (a1 <= 0 -> r1 <= 0)).
  { subst r1.
    assert (Rp : 0 <= a1 -> 0 <= Z.rem a1 b1 < b1)
      by (intros S; apply Z.rem_bound_pos; assumption).
    assert (Rn : a1 <= 0 -> - b1 < Z.rem a1 b1 <= 0).
    { intros S. pose proof (Z.rem_bound_pos (- a1) b1 ltac:(lia) H1) as R.
      rewrite Z.rem_opp_l in R by lia. lia. }
    lia. }
  assert (B2 : - b2 < r2 < b2 /\ (0 <= a2 -> 0 <= r2) /\ (a2 <= 0 -> r2 <= 0)).
  { subst r2.
    assert (Rp : 0 <= a2 -> 0 <= Z.rem a2 b2 < b2)
      by (intros S; apply Z.rem_bound_pos; assumption).
    assert (Rn : a2 <= 0 -> - b2 < Z.rem a2 b2 <= 0).
    { intros S. pose proof (Z.rem_bound_pos (- a2) b2 ltac:(lia) H2) as R.
      rewrite Z.rem_opp_l in R by lia. lia. }
    lia. }
  clearbody q1 q2 r1 r2.
  assert (P : 0 < b1 * b2) by (apply Z.mul_pos_pos; assumption).
  assert (H' : b1 * b2 * q1 + r1 * b2 <= b1 * b2 * q2 + r2 * b1).
  { replace (b1 * b2 * q1 + r1 * b2) with (a1 * b2) by (rewrite E1 at 1; ring).
    replace (b1 * b2 * q2 + r2 * b1) with (a2 * b1) by (rewrite E2 at 1; ring).
    exact H. }
  assert (X1 : - (b1 * b2) < r1 * b2 < b1 * b2) by nia.
  assert (X2 : - (b1 * b2) < r2 * b1 < b1 * b2) by nia.
  destruct (Z.le_gt_cases q1 q2) as [|G]; [assumption|exfalso].
  assert (G' : b1 * b2 * (q2 + 1) <= b1 * b2 * q1)
    by (apply Z.mul_le_mono_nonneg_l; lia).
  destruct (Z.le_ge_cases 0 a1) as [S1|S1];
    destruct (Z.le_ge_cases 0 a2) as [S2|S2].
  - assert (0 <= r1 * b2) by (apply Z.mul_nonneg_nonneg; lia). lia.
  - assert (0 <= r1 * b2) by (apply Z.mul_nonneg_nonneg; lia).
    assert (r2 * b1 <= 0) by (apply Z.mul_nonpos_nonneg; lia).
    assert (a1 * b2 = 0) by nia. assert (a2 * b1 = 0) by nia.
    assert (a1 = 0) by nia. assert (a2 = 0) by nia.
    subst a1 a2. nia.
  - assert (q1 <= 0) by nia. assert (0 <= q2) by nia. lia.
  - assert (r2 * b1 <= 0) by (apply Z.mul_nonpos_nonneg; lia). lia.
Qed.

(** X3.  The scaled value follows the speed: of two speeds of at most 26
    significant digits that [set_speed] scales, the larger is never given
    the smaller value. *)
Theorem target_speed_is_monotone (v1 v2 : Decimal) (n1 n2 : Z) :
  Z.abs (coefficient v1) < 10 ^ 26 ->
  Z.abs (coefficient v2) < 10 ^ 26 ->
  target_speed_of v1 = Returned n1 ->
  target_speed_of v2 = Returned n2 ->
  (value v1 <= value v2)%Q ->
  n1 <= n2.
Proof.
  intros C1 C2 T1 T2 Hle.
  rewrite (target_speed_truncates v1 n1 C1 T1).
  rewrite (target_speed_truncates v2 n2 C2 T2).
  unfold truncate. rewrite !scaled_num, !scaled_den.
  unfold Qle in Hle. rewrite !value_num, !value_den in Hle.
  assert (P : forall e, 0 < (if 0 <=? e then 1 else 10 ^ (- e))).
  { intros e. destruct (Z.leb_spec 0 e); [lia|].
    apply Z.pow_pos_nonneg; lia. }
  apply quot_le_cross; try apply P.
  destruct (0 <=? exponent v1), (0 <=? exponent v2); lia.
Qed.

Lemma target_speed_is_monotone_witness : 299 <= 300.
Proof.
  apply (target_speed_is_monotone speed_2_999 speed_3_00 299 300).
  - vm_compute. reflexivity.
  - vm_compute. reflexivity.
  - vm_compute. reflexivity.
  - vm_compute. reflexivity.
  - vm_compute. discriminate.
Defined.

(* ================================================================== *)
(** ** What a decoded sample can be *)

Lemma quotients_increase_checked :
  forall_from 0 (Z.to_nat 65535) quotient_increases = true.
Proof. vm_compute. reflexivity. Qed.

Lemma quotient_finite (n : Z) :
  0 <= n <= 65535 -> exists q, float_value (truediv n 100) = Some q.
Proof.
  intros Hn.
  destruct (quotient_within_rounding n Hn) as (q & Hq & _). eauto.
Qed.

Lemma quotient_step (n : Z) (q q' : Q) :
  0 <= n < 65535 ->
  float_value (truediv n 100) = Some q ->
  float_value (truediv (n + 1) 100) = Some q' ->
  (q < q')%Q.
Proof.
  intros Hn Hq Hq'.
  pose proof (forall_from_spec _ _ 0 n quotients_increase_checked) as H.
  rewrite Z2Nat.id in H by lia. specialize (H ltac:(lia)).
  unfold quotient_increases in H. rewrite Hq, Hq' in H.
  apply negb_true_iff in H. apply Qnot_le_lt. intros L.
  apply Qle_bool_iff in L. congruence.
Qed.

(** The speed is strictly increasing in the raw field. *)
Lemma quotient_increasing (k : nat) (n : Z) (q q' : Q) :
  0 <= n -> n + Z.of_nat (S k) <= 65535 ->
  float_value (truediv n 100) = Some q ->
  float_value (truediv (n + Z.of_nat (S k)) 100) = Some q' ->
  (q < q')%Q.
Proof.
  revert q'. induction k as [|k IH]; intros q' Hn Hm Hq Hq'.
  - change (Z.of_nat 1) with 1 in *. apply (quotient_step n); [lia|assumption..].
  - destruct (quotient_finite (n + Z.of_nat (S k)) ltac:(lia)) as [qm Hqm].
    apply Qlt_trans with qm.
    + apply IH; [lia|lia|assumption..].
    + apply (quotient_step (n + Z.of_nat (S k))); [lia|assumption|].
      replace (n + Z.of_nat (S k) + 1) with (n + Z.of_nat (S (S k))) by lia.
      exact Hq'.
Qed.

Lemma quotient_lt (n m : Z) (q q' : Q) :
  0 <= n < m -> m <= 65535 ->
  float_value (truediv n 100) = Some q ->
  float_value (truediv m 100) = Some q' ->
  (q < q')%Q.
Proof.
  intros Hn Hm Hq Hq'.
  assert (E : n + Z.of_nat (S (Z.to_nat (m - n - 1))) = m) by lia.
  apply (quotient_increasing (Z.to_nat (m - n - 1)) n).
  - lia.
  - lia.
  - exact Hq.
  - rewrite E. exact Hq'.
Qed.

Lemma truediv_100_injective (n m : Z) :
  0 <= n <= 65535 -> 0 <= m <= 65535 ->
  truediv n 100 = truediv m 100 -> n = m.
Proof.
  intros Hn Hm E.
  destruct (quotient_finite n Hn) as [q Hq].
  destruct (quotient_finite m Hm) as [q' Hq'].
  assert (Eq : q = q') by (rewrite E in Hq; congruence). subst q'.
  destruct (Z.lt_trichotomy n m) as [L|[L|L]]; [|exact L|].
  - exfalso. apply (Qlt_irrefl q). apply (quotient_lt n m); try lia; assumption.
  - exfalso. apply (Qlt_irrefl q). apply (quotient_lt m n); try lia; assumption.
Qed.

Lemma slice_length_le {A : Type} (lo hi : nat) (data : list A) :
  (length (slice lo hi data) <= hi - lo)%nat.
Proof. unfold slice. apply firstn_le_length. Qed.

Lemma from_bytes_slice_range (lo hi : nat) (data : list byte) :
  0 <= from_bytes (slice lo hi data) < 256 ^ Z.of_nat (hi - lo).
Proof.
  pose proof (from_bytes_range (slice lo hi data)) as R.
  pose proof (slice_length_le lo hi data) as L.
  assert (256 ^ Z.of_nat (length (slice lo hi data))
          <= 256 ^ Z.of_nat (hi - lo))
    by (apply Z.pow_le_mono_r; lia).
  lia.
Qed.

(** X4.  Whatever the frame, of whatever length, the sample put on the
    queue has a speed that is a finite binary64 number from 0 to less
    than 655.36, a distance from 0 to less than 2^56, and calories and
    time from 0 to less than 2^16: no field is ever negative, infinite or
    not a number. *)
Theorem decoded_sample_bounds (data : list byte) :
  (exists q : Q,
      float_value (speed (decode data)) = Some q /\
      (0 <= q)%Q /\ (q < 65536 # 100)%Q) /\
  0 <= distance (decode data) < 2 ^ 56 /\
  0 <= calories (decode data) < 2 ^ 16 /\
  0 <= time (decode data) < 2 ^ 16.
Proof.
  unfold decode. cbn [speed distance calories time].
  pose proof (from_bytes_slice_range 2 4 data) as Rs.
  pose proof (from_bytes_slice_range 4 11 data) as Rd.
  pose proof (from_bytes_slice_range 11 13 data) as Rc.
  pose proof (from_bytes_slice_range 17 19 data) as Rt.
  change (256 ^ Z.of_nat (4 - 2)) with 65536 in Rs.
  change (256 ^ Z.of_nat (11 - 4)) with (2 ^ 56) in Rd.
  change (256 ^ Z.of_nat (13 - 11)) with (2 ^ 16) in Rc.
  change (256 ^ Z.of_nat (19 - 17)) with (2 ^ 16) in Rt.
  split; [|split; [exact Rd|split; [exact Rc|exact Rt]]].
  set (raw := from_bytes (slice 2 4 data)) in *.
  destruct (quotient_finite raw ltac:(lia)) as [q Hq].
  exists q. split; [exact Hq|]. split.
  - destruct (Z.eq_dec raw 0) as [E|E].
    + rewrite E in Hq. vm_compute in Hq. injection Hq as <-.
      apply Qle_refl.
    + apply Qlt_le_weak. apply (quotient_lt 0 raw); try lia; try assumption.
      vm_compute. reflexivity.
  - destruct (Z.eq_dec raw 65535) as [E|E].
    + rewrite E in Hq. vm_compute in Hq. injection Hq as <-.
      vm_compute. reflexivity.
    + destruct (quotient_finite 65535 ltac:(lia)) as [top Htop].
      apply Qlt_trans with top.
      * apply (quotient_lt raw 65535); try lia; assumption.
      * vm_compute in Htop. injection Htop as <-. vm_compute. reflexivity.
Qed.

Lemma from_bytes_injective (bs cs : list byte) :
  length bs = length cs -> from_bytes bs = from_bytes cs -> bs = cs.
Proof.
  intros L E.
  rewrite <- (le_digits_from_bytes bs), <- (le_digits_from_bytes cs).
  rewrite L, E. reflexivity.
Qed.

Lemma speed_field_injective (bs cs : list byte) :
  length bs = 2%nat -> length cs = 2%nat ->
  truediv (from_bytes bs) 100 = truediv (from_bytes cs) 100 -> bs = cs.
Proof.
  intros Lb Lc E.
  pose proof (from_bytes_range bs) as Rb.
  pose proof (from_bytes_range cs) as Rc.
  rewrite Lb in Rb. rewrite Lc in Rc.
  change (256 ^ Z.of_nat 2) with 65536 in *.
  apply from_bytes_injective; [congruence|].
  apply truediv_100_injective; [lia|lia|exact E].
Qed.

(** X5.  A frame of at least 19 bytes is decoded from its bytes 2 to 12
    and 17 to 18 and from nothing else, and none of what these bytes say
    is lost: two such frames give the same sample exactly when they agree
    on these 13 bytes.  Bytes 0, 1, 13 to 16 and all from 19 on are never
    looked at. *)
Theorem decode_depends_on_read_bytes (d1 d2 : list byte) :
  (19 <= length d1)%nat ->
  (19 <= length d2)%nat ->
  (decode d1 = decode d2 <->
   slice 2 13 d1 = slice 2 13 d2 /\ slice 17 19 d1 = slice 17 19 d2).
Proof.
  intros L1 L2.
  do 19 (destruct d1 as [|? d1]; [cbn [length] in L1; lia|]).
  do 19 (destruct d2 as [|? d2]; [cbn [length] in L2; lia|]).
  clear L1 L2. unfold decode, slice. cbn [Nat.sub firstn skipn].
  split.
  - intros E.
    pose proof (f_equal speed E) as Es.
    pose proof (f_equal distance E) as Ed.
    pose proof (f_equal calories E) as Ec.
    pose proof (f_equal time E) as Et.
    cbn [speed distance calories time] in Es, Ed, Ec, Et.
    apply speed_field_injective in Es; [|reflexivity..].
    apply from_bytes_injective in Ed; [|reflexivity].
    apply from_bytes_injective in Ec; [|reflexivity].
    apply from_bytes_injective in Et; [|reflexivity].
    split; congruence.
  - intros [E1 E2]. congruence.
Qed.

Lemma decode_depends_on_read_bytes_witness :
  decode (frame_with_speed x2c x01)
  = decode ([xff; xff; x2c; x01] ++ repeat x00 9 ++ [xaa; xbb; xcc; xdd]
              ++ repeat x00 2 ++ [x11; x22; x33]).
Proof.
  apply (decode_depends_on_read_bytes (frame_with_speed x2c x01)).
  - cbn. lia.
  - cbn. lia.
  - split; reflexivity.
Defined.

(* ================================================================== *)
(** ** The telemetry queue *)

Section Queue.

Variable env : environment.

Lemma write_command_keeps_queue (command : list byte) (st : state) :
  telemetry_queue (snd (_write_command env command st)) = telemetry_queue st.
Proof. rewrite write_command_effect. reflexivity. Qed.

Lemma sleep_keeps_queue (seconds : Z) (st : state) :
  telemetry_queue (snd (sleep env seconds st)) = telemetry_queue st.
Proof. rewrite sleep_effect. reflexivity. Qed.

Lemma flagged_write_keeps_queue (b : bool) (command : list byte) (st : state) :
  telemetry_queue (snd ((set_flag b ;; _write_command env command) st))
  = telemetry_queue st.
Proof. rewrite flagged_write_effect. reflexivity. Qed.

Lemma set_speed_keeps_queue (v : Decimal) (st : state) :
  telemetry_queue (snd (set_speed env v st)) = telemetry_queue st.
Proof.
  destruct (set_speed_command v) as [command|e] eqn:Hc.
  - rewrite (set_speed_returned _ _ _ _ Hc). apply write_command_keeps_queue.
  - rewrite (set_speed_raised _ _ _ _ Hc). reflexivity.
Qed.

Lemma workout_loop_keeps_queue (intervals : list (Decimal * Z)) (st : state) :
  telemetry_queue (snd (workout_loop env intervals st)) = telemetry_queue st.
Proof.
  revert st. induction intervals as [|[v d] rest IH]; intros st.
  - reflexivity.
  - destruct (stop_event st) eqn:Hf.
    + rewrite workout_loop_break by exact Hf. reflexivity.
    + destruct (set_speed_command v) as [command|e] eqn:Hc.
      * rewrite (workout_loop_step _ _ _ _ _ _ Hf Hc), IH.
        rewrite sleep_keeps_queue. apply write_command_keeps_queue.
      * rewrite (workout_loop_raise _ _ _ _ _ _ Hf Hc). reflexivity.
Qed.

Lemma start_workout_keeps_queue (intervals : list (Decimal * Z)) (st : state) :
  telemetry_queue (snd (start_workout env intervals st)) = telemetry_queue st.
Proof.
  rewrite start_workout_after_warm_up.
  pose proof (workout_loop_keeps_queue intervals
                (snd (sleep env 5 (snd (start env st))))) as K.
  rewrite sleep_keeps_queue in K. unfold start in K at 2.
  rewrite flagged_write_keeps_queue in K.
  unfold bind.
  destruct (workout_loop env intervals (snd (sleep env 5 (snd (start env st)))))
    as [[[]|e] s1]; cbn [snd] in *.
  - unfold _pause. rewrite flagged_write_keeps_queue. exact K.
  - exact K.
Qed.

Lemma perform_queue (c : call) (st : state) :
  telemetry_queue (snd (perform env c st)) =
  telemetry_queue st
    ++ match c with CallNotify data => [decode data] | _ => [] end.
Proof.
  destruct c as [| | |v|data| |intervals]; cbn [perform];
    rewrite ?app_nil_r.
  - apply flagged_write_keeps_queue.
  - apply flagged_write_keeps_queue.
  - apply flagged_write_keeps_queue.
  - apply set_speed_keeps_queue.
  - reflexivity.
  - unfold subscribe, bind, log. rewrite suspend_effect. cbn.
    destruct (notify_started env (suspensions st)); reflexivity.
  - apply start_workout_keeps_queue.
Qed.

End Queue.

(** X6.  After any sequence of calls on the controller, in any
    surroundings, the telemetry queue holds what it held before followed
    by one sample for each frame handed to [_notification_handler], in
    the order of the calls: no frame is dropped or reordered, and no
    command, workout or subscription puts or removes anything. *)
Theorem queue_holds_the_notifications (env : environment) (cs : list call)
        (st : state) :
  telemetry_queue (run_calls env cs st)
  = telemetry_queue st ++ map decode (notified cs).
Proof.
  unfold run_calls. revert st. induction cs as [|c cs IH]; intros st.
  - cbn. rewrite app_nil_r. reflexivity.
  - cbn [fold_left]. rewrite IH, perform_queue.
    cbn [notified flat_map]. rewrite map_app, <- app_assoc.
    f_equal. f_equal. destruct c; reflexivity.
Qed.

(* ================================================================== *)
(** ** Workouts in any surroundings *)

Section Workouts.

Variable env : environment.







End Workouts.










(* ================================================================== *)
(** ** How long a workout sleeps *)


Section Clock.

Variable env : environment.





End Clock.



(* ================================================================== *)
(** ** Calls of other tasks during a wait *)

Lemma flag_after_last (calls : list (Z * concurrent_call))
      (oc : Z * concurrent_call) (b : bool) :
  flag_after (calls ++ [oc]) b
  = match snd oc with OtherStop => true | OtherStart => false end.
Proof. unfold flag_after. rewrite fold_left_app. reflexivity. Qed.

(** X11.  Of the calls other tasks make during one wait only the last
    counts, because the event is looked at only after the wait.  If the
    last is [start()], the loop goes on with the next interval although
    [stop()] may have been called before it during the same wait; if the
    last is [stop()], the loop ends at its next check. *)
Theorem last_call_in_a_wait_decides (env : environment) (seconds offset : Z)
        (calls : list (Z * concurrent_call)) (c : concurrent_call)
        (st : state) :
  concurrent env (suspensions st) = calls ++ [(offset, c)] ->
  stop_event (snd (sleep env seconds st))
    = match c with OtherStop => true | OtherStart => false end /\
  (c = OtherStart ->
   forall v d rest command,
     set_speed_command v = Returned command ->
     workout_loop env ((v, d) :: rest) (snd (sleep env seconds st))
     = workout_loop env rest
         (snd (sleep env d
                 (snd (_write_command env command
                         (snd (sleep env seconds st))))))) /\
  (c = OtherStop ->
   forall intervals,
     workout_loop env intervals (snd (sleep env seconds st))
     = (Returned tt, snd (sleep env seconds st))).
Proof.
  intros Hc.
  assert (Hf : stop_event (snd (sleep env seconds st))
               = match c with OtherStop => true | OtherStart => false end).
  { rewrite sleep_effect. cbn [snd stop_event]. rewrite Hc.
    apply flag_after_last. }
  split; [exact Hf|]. split.
  - intros -> v d rest command Hv. apply workout_loop_step; assumption.
  - intros -> intervals. apply workout_loop_break. exact Hf.
Qed.

Lemma last_call_in_a_wait_decides_witness :
  stop_event
    (snd (sleep (mkEnvironment (fun _ => true) (fun _ => true)
                   (fun _ => [(1, OtherStop); (2, OtherStart)]))
                10 (init [])))
  = false.
Proof.
  exact (proj1 (last_call_in_a_wait_decides
                  (mkEnvironment (fun _ => true) (fun _ => true)
                     (fun _ => [(1, OtherStop); (2, OtherStart)]))
                  10 2 [(1, OtherStop)] OtherStart (init []) eq_refl)).
Defined.

(* ================================================================== *)
(** ** Failed writes are reported *)

Lemma reported_since_refl (st : state) : reported_since st st.
Proof. exists []. rewrite !app_nil_r. auto. Qed.

Lemma reported_since_trans (st1 st2 st3 : state) :
  reported_since st1 st2 -> reported_since st2 st3 -> reported_since st1 st3.
Proof.
  intros (f1 & A1 & B1) (f2 & A2 & B2). exists (f1 ++ f2).
  rewrite A2, B2, A1, B1, <- !app_assoc. auto.
Qed.

Lemma failed_writes_stamps (t : Z) (calls : list (Z * concurrent_call)) :
  failed_writes (map (stamp t) calls) = [] /\ reports (map (stamp t) calls) = [].
Proof.
  induction calls as [|oc calls [IH1 IH2]]; [split; reflexivity|].
  split; cbn; assumption.
Qed.

Section Reports.

Variable env : environment.

Lemma write_command_reported (command : list byte) (st : state) :
  reported_since st (snd (_write_command env command st)).
Proof.
  rewrite write_command_effect. cbn [snd].
  exists (if write_acknowledged env (suspensions st) then [] else [command]).
  unfold failed_writes, reports. cbn [trace].
  rewrite !flat_map_app. cbn [flat_map snd].
  rewrite !flat_map_app.
  destruct (failed_writes_stamps (now st) (concurrent env (suspensions st)))
    as [F R].
  unfold failed_writes in F. unfold reports in R. rewrite F, R.
  destruct (write_acknowledged env (suspensions st)); cbn; auto.
Qed.

Lemma sleep_reported (seconds : Z) (st : state) :
  reported_since st (snd (sleep env seconds st)).
Proof.
  rewrite sleep_effect. cbn [snd]. exists [].
  unfold failed_writes, reports. cbn [trace].
  rewrite !flat_map_app. cbn [flat_map snd].
  destruct (failed_writes_stamps (now st) (concurrent env (suspensions st)))
    as [F R].
  unfold failed_writes in F. unfold reports in R. rewrite F, R. auto.
Qed.

Lemma flagged_write_reported (b : bool) (command : list byte) (st : state) :
  reported_since st (snd ((set_flag b ;; _write_command env command) st)).
Proof.
  pose proof (write_command_reported command
                (mkState b (telemetry_queue st) (now st) (suspensions st)
                         (trace st))) as H.
  exact H.
Qed.

Lemma set_speed_reported (v : Decimal) (st : state) :
  reported_since st (snd (set_speed env v st)).
Proof.
  destruct (set_speed_command v) as [command|e] eqn:Hc.
  - rewrite (set_speed_returned _ _ _ _ Hc). apply write_command_reported.
  - rewrite (set_speed_raised _ _ _ _ Hc). apply reported_since_refl.
Qed.

Lemma workout_loop_reported (intervals : list (Decimal * Z)) (st : state) :
  reported_since st (snd (workout_loop env intervals st)).
Proof.
  revert st. induction intervals as [|[v d] rest IH]; intros st.
  - apply reported_since_refl.
  - destruct (stop_event st) eqn:Hf.
    + rewrite workout_loop_break by exact Hf. apply reported_since_refl.
    + destruct (set_speed_command v) as [command|e] eqn:Hc.
      * rewrite (workout_loop_step _ _ _ _ _ _ Hf Hc).
        eapply reported_since_trans; [|apply IH].
        eapply reported_since_trans;
          [apply write_command_reported|apply sleep_reported].
      * rewrite (workout_loop_raise _ _ _ _ _ _ Hf Hc).
        apply reported_since_refl.
Qed.

Lemma start_workout_reported (intervals : list (Decimal * Z)) (st : state) :
  reported_since st (snd (start_workout env intervals st)).
Proof.
  rewrite start_workout_after_warm_up.
  assert (H1 : reported_since st (snd (sleep env 5 (snd (start env st))))).
  { eapply reported_since_trans; [|apply sleep_reported].
    unfold start. apply flagged_write_reported. }
  pose proof (workout_loop_reported intervals
                (snd (sleep env 5 (snd (start env st))))) as H2.
  unfold bind.
  destruct (workout_loop env intervals (snd (sleep env 5 (snd (start env st)))))
    as [[[]|e] s1]; cbn [snd] in *.
  - eapply reported_since_trans; [exact H1|].
    eapply reported_since_trans; [exact H2|].
    unfold _pause. apply flagged_write_reported.
  - eapply reported_since_trans; [exact H1|exact H2].
Qed.

Lemma perform_reported (c : call) (st : state) :
  reported_since st (snd (perform env c st)).
Proof.
  destruct c as [| | |v|data| |intervals]; cbn [perform].
  - apply flagged_write_reported.
  - apply flagged_write_reported.
  - apply flagged_write_reported.
  - apply set_speed_reported.
  - exists []. cbn. rewrite !app_nil_r. auto.
  - unfold subscribe, bind, log. rewrite suspend_effect.
    cbn [snd stop_event telemetry_queue now suspensions trace].
    exists []. unfold failed_writes, reports.
    destruct (failed_writes_stamps (now st) (concurrent env (suspensions st)))
      as [F R].
    unfold failed_writes in F. unfold reports in R.
    destruct (notify_started env (suspensions st));
      cbn [snd lift trace]; rewrite !flat_map_app; cbn [flat_map snd];
      rewrite ?flat_map_app, F, R; cbn; rewrite ?app_nil_r; auto.
  - apply start_workout_reported.
Qed.

End Reports.

(** X12.  Whatever is called on a new controller, whichever writes raise
    an [Exception] and whatever other tasks call meanwhile, the failure
    messages printed are exactly the commands whose write raised an
    [Exception], once each and in the same order: no such write goes
    unreported, nothing is reported twice, and a write that went through
    is never reported.  (A write ended by an exception outside
    [Exception], such as [asyncio.CancelledError], is not covered: the
    [except Exception] clause lets it through without a message.) *)
Theorem failed_writes_are_reported (env : environment) (cs : list call)
        (queue : list metrics) :
  reports (trace (run_calls env cs (init queue)))
  = failed_writes (trace (run_calls env cs (init queue))).
Proof.
  assert (H : forall st, reported_since st (run_calls env cs st)).
  { unfold run_calls. induction cs as [|c cs IH]; intros st.
    - apply reported_since_refl.
    - cbn [fold_left]. eapply reported_since_trans;
        [apply perform_reported|apply IH]. }
  destruct (H (init queue)) as (failed & F & R).
  rewrite F, R. reflexivity.
Qed.

(* ================================================================== *)
(** ** The earlier class: nothing is written, the event is never cleared *)

Lemma some_snd {A B : Type} (x : A * B) (a : A) (b : B) :
  Some x = Some (a, b) -> b = snd x.
Proof. intros H. injection H as ->. reflexivity. Qed.

Lemma legacy_follows_refl (st : Legacy.state) : Legacy.follows st st.
Proof. split; auto. Qed.

Lemma legacy_follows_trans (st1 st2 st3 : Legacy.state) :
  Legacy.follows st1 st2 -> Legacy.follows st2 st3 -> Legacy.follows st1 st3.
Proof. intros [W1 F1] [W2 F2]. split; [congruence|auto]. Qed.

Lemma legacy_writes_app (tr1 tr2 : list (Z * Legacy.event)) :
  Legacy.writes (tr1 ++ tr2) = Legacy.writes tr1 ++ Legacy.writes tr2.
Proof. apply flat_map_app. Qed.

Lemma legacy_interleave_follows (calls : list (Z * concurrent_call))
      (st : Legacy.state) :
  Legacy.follows st (fold_left Legacy.interleave calls st).
Proof.
  revert st. induction calls as [|oc calls IH]; intros st.
  - apply legacy_follows_refl.
  - cbn [fold_left]. eapply legacy_follows_trans; [|apply IH].
    split.
    + cbn. rewrite legacy_writes_app. cbn. rewrite app_nil_r. reflexivity.
    + cbn. intros ->. destruct (snd oc); reflexivity.
Qed.

Section LegacySteps.

Variable env : Legacy.environment.

Lemma legacy_suspend_follows (seconds : Z) (st : Legacy.state) :
  Legacy.follows st (snd (Legacy.suspend env seconds st)).
Proof.
  unfold Legacy.suspend. cbn [snd].
  destruct (legacy_interleave_follows
              (Legacy.concurrent env (Legacy.suspensions st)) st) as [W F].
  split; cbn; assumption.
Qed.

Lemma legacy_log_follows (e : Legacy.event) (st : Legacy.state) :
  (forall command ok, e <> Legacy.WriteGatt command ok) ->
  Legacy.follows st (snd (Legacy.log e st)).
Proof.
  intros Hne. split; cbn; [|auto].
  rewrite legacy_writes_app. cbn.
  destruct e; try (rewrite app_nil_r; reflexivity).
  exfalso. eapply Hne. reflexivity.
Qed.

Lemma legacy_logged_suspend_follows (e : Legacy.event) (seconds : Z)
      (st : Legacy.state) :
  (forall command ok, e <> Legacy.WriteGatt command ok) ->
  Legacy.follows st
    (snd (Legacy.bind (Legacy.log e) (fun _ => Legacy.suspend env seconds) st)).
Proof.
  intros Hne. unfold Legacy.bind.
  destruct (Legacy.log e st) as [[[]|x] s1] eqn:E; cbn in E.
  - injection E as <-.
    eapply legacy_follows_trans;
      [apply (legacy_log_follows e st Hne)|apply legacy_suspend_follows].
  - discriminate.
Qed.

Lemma legacy_sleep_follows (seconds : Z) (st : Legacy.state) :
  Legacy.follows st (snd (Legacy.sleep env seconds st)).
Proof. apply legacy_logged_suspend_follows. discriminate. Qed.

Lemma legacy_is_connected_follows (st : Legacy.state) :
  Legacy.follows st (snd (Legacy.is_connected env st)).
Proof.
  unfold Legacy.is_connected.
  pose proof (legacy_logged_suspend_follows
                (Legacy.IsConnected (Legacy.connected env (Legacy.suspensions st)))
                0 st ltac:(discriminate)) as H.
  unfold Legacy.bind in *. cbn in *. exact H.
Qed.

Lemma legacy_poll_follows (fuel : nat) (st st' : Legacy.state) :
  Legacy.poll env fuel st = Some st' -> Legacy.follows st st'.
Proof.
  revert st. induction fuel as [|fuel IH]; intros st H.
  - discriminate.
  - cbn [Legacy.poll] in H.
    destruct (Legacy.stop_event st).
    + injection H as <-. apply legacy_follows_refl.
    + pose proof (legacy_is_connected_follows st) as C.
      destruct (Legacy.is_connected env st) as [[[|]|x] s1]; cbn [snd] in C.
      * eapply legacy_follows_trans; [exact C|].
        eapply legacy_follows_trans; [apply legacy_sleep_follows|].
        apply IH. exact H.
      * injection H as <-. exact C.
      * injection H as <-. exact C.
Qed.

Lemma legacy_subscribe_follows (fuel : nat) (st st' : Legacy.state)
      (r : Legacy.result unit) :
  Legacy.subscribe env fuel st = Some (r, st') -> Legacy.follows st st'.
Proof.
  unfold Legacy.subscribe.
  pose proof (legacy_logged_suspend_follows Legacy.StartNotify 0 st
                ltac:(discriminate)) as H1.
  destruct (Legacy.bind (Legacy.log Legacy.StartNotify)
              (fun _ => Legacy.suspend env 0) st) as [r1 s1].
  cbn [snd] in H1.
  destruct (Legacy.notify_started env (Legacy.suspensions st)).
  - pose proof (legacy_log_follows Legacy.PrintSubscribed s1
                  ltac:(discriminate)) as H2.
    destruct (Legacy.log Legacy.PrintSubscribed s1) as [r2 s2]. cbn [snd] in H2.
    destruct (Legacy.poll env fuel s2) as [s3|] eqn:Hp; [|discriminate].
    apply legacy_poll_follows in Hp.
    pose proof (legacy_logged_suspend_follows Legacy.StopNotify 0 s3
                  ltac:(discriminate)) as H4.
    destruct (Legacy.bind (Legacy.log Legacy.StopNotify)
                (fun _ => Legacy.suspend env 0) s3) as [r4 s4].
    cbn [snd] in H4.
    assert (H14 : Legacy.follows st s4).
    { eapply legacy_follows_trans; [exact H1|].
      eapply legacy_follows_trans; [exact H2|].
      eapply legacy_follows_trans; [exact Hp|exact H4]. }
    destruct (Legacy.notify_stopped env (Legacy.suspensions s3)).
    + intros [= <- <-].
      eapply legacy_follows_trans; [exact H14|].
      apply legacy_log_follows. discriminate.
    + intros [= <- <-]. exact H14.
  - intros [= <- <-]. exact H1.
Qed.

Lemma legacy_perform_follows (fuel : nat) (c : Legacy.call)
      (st st' : Legacy.state) (r : Legacy.result unit) :
  Legacy.perform fuel env c st = Some (r, st') -> Legacy.follows st st'.
Proof.
  destruct c as [| | |f|data|]; cbn [Legacy.perform];
    try (intros H; apply some_snd in H; subst st').
  - apply legacy_log_follows. discriminate.
  - apply legacy_log_follows. discriminate.
  - unfold Legacy.stop, Legacy.bind, Legacy.set_flag.
    split; cbn; [|reflexivity].
    rewrite legacy_writes_app. cbn. rewrite app_nil_r. reflexivity.
  - unfold Legacy.set_speed.
    destruct (Legacy.set_speed_command f).
    + apply legacy_log_follows. discriminate.
    + apply legacy_follows_refl.
  - apply legacy_log_follows. discriminate.
  - apply legacy_subscribe_follows.
Qed.

Lemma legacy_run_follows (fuel : nat) (cs : list Legacy.call)
      (st st' : Legacy.state) :
  Legacy.run_calls fuel env cs st = Some st' -> Legacy.follows st st'.
Proof.
  revert st. induction cs as [|c cs IH]; intros st H.
  - injection H as <-. apply legacy_follows_refl.
  - cbn [Legacy.run_calls] in H.
    destruct (Legacy.perform fuel env c st) as [[r s1]|] eqn:P; [|discriminate].
    eapply legacy_follows_trans;
      [apply (legacy_perform_follows _ _ _ _ _ P)|apply IH; exact H].
Qed.

End LegacySteps.

Section LegacyQuiet.

Variable env : Legacy.environment.
Hypothesis env_quiet : Legacy.quiet env.

Lemma legacy_suspend_flag (seconds : Z) (st : Legacy.state) :
  Legacy.stop_event (snd (Legacy.suspend env seconds st)) = Legacy.stop_event st.
Proof. unfold Legacy.suspend. rewrite env_quiet. reflexivity. Qed.

Lemma legacy_logged_suspend_flag (e : Legacy.event) (seconds : Z)
      (st : Legacy.state) :
  Legacy.stop_event
    (snd (Legacy.bind (Legacy.log e) (fun _ => Legacy.suspend env seconds) st))
  = Legacy.stop_event st.
Proof.
  unfold Legacy.bind. cbn [Legacy.log]. rewrite legacy_suspend_flag.
  reflexivity.
Qed.

Lemma legacy_poll_flag (fuel : nat) (st st' : Legacy.state) :
  Legacy.poll env fuel st = Some st' ->
  Legacy.stop_event st' = Legacy.stop_event st.
Proof.
  revert st. induction fuel as [|fuel IH]; intros st H.
  - discriminate.
  - cbn [Legacy.poll] in H.
    destruct (Legacy.stop_event st) eqn:Hf.
    + injection H as <-. exact Hf.
    + assert (C : Legacy.stop_event (snd (Legacy.is_connected env st)) = false).
      { unfold Legacy.is_connected, Legacy.bind, Legacy.log, Legacy.ret,
          Legacy.suspend.
        cbn [Legacy.suspensions Legacy.stop_event snd].
        rewrite env_quiet. exact Hf. }
      destruct (Legacy.is_connected env st) as [[[|]|x] s1]; cbn [snd] in C.
      * apply IH in H. rewrite H.
        unfold Legacy.sleep. rewrite legacy_logged_suspend_flag. exact C.
      * injection H as <-. exact C.
      * injection H as <-. exact C.
Qed.

Lemma legacy_subscribe_flag (fuel : nat) (st st' : Legacy.state)
      (r : Legacy.result unit) :
  Legacy.subscribe env fuel st = Some (r, st') ->
  Legacy.stop_event st' = Legacy.stop_event st.
Proof.
  unfold Legacy.subscribe.
  pose proof (legacy_logged_suspend_flag Legacy.StartNotify 0 st) as H1.
  destruct (Legacy.bind (Legacy.log Legacy.StartNotify)
              (fun _ => Legacy.suspend env 0) st) as [r1 s1].
  cbn [snd] in H1.
  destruct (Legacy.notify_started env (Legacy.suspensions st)).
  - cbn [Legacy.log].
    destruct (Legacy.poll env fuel _) as [s3|] eqn:Hp; [|discriminate].
    apply legacy_poll_flag in Hp. cbn [Legacy.stop_event] in Hp.
    pose proof (legacy_logged_suspend_flag Legacy.StopNotify 0 s3) as H4.
    destruct (Legacy.bind (Legacy.log Legacy.StopNotify)
                (fun _ => Legacy.suspend env 0) s3) as [r4 s4].
    cbn [snd] in H4.
    destruct (Legacy.notify_stopped env (Legacy.suspensions s3));
      intros H; apply some_snd in H; subst st'; cbn; congruence.
  - intros H. apply some_snd in H. subst st'. exact H1.
Qed.

Lemma legacy_perform_flag (fuel : nat) (c : Legacy.call)
      (st st' : Legacy.state) (r : Legacy.result unit) :
  Legacy.perform fuel env c st = Some (r, st') ->
  Legacy.stop_event st' = Legacy.stop_event st || Legacy.is_stop c.
Proof.
  destruct c as [| | |f|data|]; cbn [Legacy.perform Legacy.is_stop];
    rewrite ?orb_false_r;
    try (intros H; apply some_snd in H; subst st').
  - reflexivity.
  - reflexivity.
  - cbn. rewrite orb_true_r. reflexivity.
  - unfold Legacy.set_speed. destruct (Legacy.set_speed_command f); reflexivity.
  - reflexivity.
  - apply legacy_subscribe_flag.
Qed.

Lemma legacy_run_flag (fuel : nat) (cs : list Legacy.call)
      (st st' : Legacy.state) :
  Legacy.run_calls fuel env cs st = Some st' ->
  Legacy.stop_event st'
  = Legacy.stop_event st || existsb Legacy.is_stop cs.
Proof.
  revert st. induction cs as [|c cs IH]; intros st H.
  - injection H as <-. cbn. rewrite orb_false_r. reflexivity.
  - cbn [Legacy.run_calls] in H.
    destruct (Legacy.perform fuel env c st) as [[r s1]|] eqn:P; [|discriminate].
    rewrite (IH _ H), (legacy_perform_flag _ _ _ _ _ P).
    cbn [existsb]. rewrite orb_assoc. reflexivity.
Qed.

End LegacyQuiet.

(** X13.  The earlier class never hands a command to the client: in any
    sequence of its calls ([start], [pause], [stop], [set_speed], the
    handler, [subscribe]) that comes to an end, in any surroundings, the
    trace gains no write.  The command coroutine is built and dropped
    without being awaited. *)
Theorem legacy_never_writes (fuel : nat) (env : Legacy.environment)
        (cs : list Legacy.call) (st st' : Legacy.state) :
  Legacy.run_calls fuel env cs st = Some st' ->
  Legacy.writes (Legacy.trace st') = Legacy.writes (Legacy.trace st).
Proof. intros H. apply (legacy_run_follows env fuel cs st st' H). Qed.

(** X14.  In the earlier class nothing clears the event: once set it
    stays set through any sequence of calls, in any surroundings; and
    with no other task about it is set at the end exactly when it was
    set at the beginning or [stop] is among the calls ([start] and
    [pause] do not touch it). *)
Theorem legacy_flag_is_never_cleared (fuel : nat) (env : Legacy.environment)
        (cs : list Legacy.call) (st st' : Legacy.state) :
  Legacy.run_calls fuel env cs st = Some st' ->
  (Legacy.stop_event st = true -> Legacy.stop_event st' = true) /\
  (Legacy.quiet env ->
   Legacy.stop_event st'
   = Legacy.stop_event st || existsb Legacy.is_stop cs).
Proof.
  intros H. split.
  - apply (legacy_run_follows env fuel cs st st' H).
  - intros Hq. apply (legacy_run_flag env Hq fuel cs st st' H).
Qed.

Lemma legacy_never_writes_witness :
  Legacy.writes
    (Legacy.trace
       (match Legacy.run_calls 3 Legacy.steady
                [Legacy.CallStart; Legacy.CallSetSpeed (truediv 300 100);
                 Legacy.CallStop; Legacy.CallSubscribe; Legacy.CallPause]
                Legacy.init with
        | Some st' => st'
        | None => Legacy.init
        end))
  = Legacy.writes (Legacy.trace Legacy.init).
Proof.
  apply (legacy_never_writes 3 Legacy.steady
           [Legacy.CallStart; Legacy.CallSetSpeed (truediv 300 100);
            Legacy.CallStop; Legacy.CallSubscribe; Legacy.CallPause]
           Legacy.init
           (match Legacy.run_calls 3 Legacy.steady
                    [Legacy.CallStart; Legacy.CallSetSpeed (truediv 300 100);
                     Legacy.CallStop; Legacy.CallSubscribe; Legacy.CallPause]
                    Legacy.init with
            | Some st' => st'
            | None => Legacy.init
            end)).
  vm_compute. reflexivity.
Defined.

Lemma legacy_flag_is_never_cleared_witness :
  Legacy.stop_event
    (match Legacy.run_calls 3 Legacy.steady
             [Legacy.CallStop; Legacy.CallStart; Legacy.CallSubscribe]
             Legacy.init with
     | Some st' => st'
     | None => Legacy.init
     end)
  = Legacy.stop_event Legacy.init
    || existsb Legacy.is_stop
         [Legacy.CallStop; Legacy.CallStart; Legacy.CallSubscribe].
Proof.
  refine (proj2 (legacy_flag_is_never_cleared 3 Legacy.steady
                   [Legacy.CallStop; Legacy.CallStart; Legacy.CallSubscribe]
                   Legacy.init
                   (match Legacy.run_calls 3 Legacy.steady
                            [Legacy.CallStop; Legacy.CallStart;
                             Legacy.CallSubscribe] Legacy.init with
                    | Some st' => st'
                    | None => Legacy.init
                    end) _) _).
  - vm_compute. reflexivity.
  - intros k. reflexivity.
Defined.

(* ================================================================== *)
(** ** The earlier class: [subscribe] polls once a second *)

Section LegacyPolling.

Variable env : Legacy.environment.

(** One undisturbed turn of the loop. *)
Lemma legacy_poll_turn (fuel : nat) (st : Legacy.state) :
  Legacy.stop_event st = false ->
  Legacy.connected env (Legacy.suspensions st) = true ->
  Legacy.concurrent env (Legacy.suspensions st) = [] ->
  Legacy.poll env (S fuel) st =
  Legacy.poll env fuel
    (snd (Legacy.sleep env 1
            (Legacy.mkState false (Legacy.now st)
               (S (Legacy.suspensions st))
               (Legacy.trace st
                  ++ [(Legacy.now st, Legacy.IsConnected true)])))).
Proof.
  intros Hf Hc Hq. cbn [Legacy.poll]. rewrite Hf.
  unfold Legacy.is_connected, Legacy.bind, Legacy.log, Legacy.ret,
    Legacy.suspend at 1.
  cbn [Legacy.suspensions Legacy.stop_event Legacy.now Legacy.trace snd].
  rewrite Hc, Hq. cbn [fold_left Legacy.stop_event Legacy.now
                       Legacy.suspensions Legacy.trace].
  rewrite Hf, Z.add_0_r. reflexivity.
Qed.

Lemma legacy_sleep_quiet (st : Legacy.state) :
  Legacy.concurrent env (Legacy.suspensions st) = [] ->
  snd (Legacy.sleep env 1 st) =
  Legacy.mkState (Legacy.stop_event st) (Legacy.now st + 1)
                 (S (Legacy.suspensions st))
                 (Legacy.trace st ++ [(Legacy.now st, Legacy.Sleep 1)]).
Proof.
  intros Hq. unfold Legacy.sleep, Legacy.bind, Legacy.log, Legacy.suspend.
  cbn [Legacy.suspensions Legacy.stop_event Legacy.now Legacy.trace snd].
  rewrite Hq. reflexivity.
Qed.

Lemma legacy_sleep_stopped (offset : Z) (st : Legacy.state) :
  Legacy.concurrent env (Legacy.suspensions st) = [(offset, OtherStop)] ->
  snd (Legacy.sleep env 1 st) =
  Legacy.mkState true (Legacy.now st + 1) (S (Legacy.suspensions st))
                 (Legacy.trace st
                    ++ [(Legacy.now st, Legacy.Sleep 1);
                        (Legacy.now st + offset, Legacy.Concurrent OtherStop)]).
Proof.
  intros Hq. unfold Legacy.sleep, Legacy.bind, Legacy.log, Legacy.suspend.
  cbn [Legacy.suspensions Legacy.stop_event Legacy.now Legacy.trace snd].
  rewrite Hq. cbn. rewrite <- app_assoc. reflexivity.
Qed.

(** [rounds] undisturbed turns: the loop is then where it began, [rounds]
    seconds later. *)
Lemma legacy_poll_undisturbed (rounds fuel : nat) (st : Legacy.state) :
  Legacy.stop_event st = false ->
  Legacy.undisturbed env (Legacy.suspensions st) rounds ->
  Legacy.poll env (rounds + fuel) st =
  Legacy.poll env fuel
    (Legacy.mkState false (Legacy.now st + Z.of_nat rounds)
       (Legacy.suspensions st + 2 * rounds)
       (Legacy.trace st ++ Legacy.rounds_events (Legacy.now st) rounds)).
Proof.
  revert st. induction rounds as [|r IH]; intros st Hf Hu.
  - cbn [Nat.add Legacy.rounds_events Z.of_nat].
    rewrite Z.add_0_r, Nat.mul_0_r, Nat.add_0_r, app_nil_r, <- Hf.
    destruct st; reflexivity.
  - destruct (Hu O ltac:(lia)) as (C0 & Q0 & Q1).
    rewrite Nat.mul_0_r, Nat.add_0_r in C0, Q0, Q1.
    cbn [Nat.add]. rewrite (legacy_poll_turn _ _ Hf C0 Q0).
    rewrite legacy_sleep_quiet
      by (cbn [Legacy.suspensions]; rewrite <- Q1; f_equal; lia).
    cbn [Legacy.stop_event Legacy.now Legacy.suspensions Legacy.trace].
    rewrite IH.
    + cbn [Legacy.stop_event Legacy.now Legacy.suspensions Legacy.trace
           Legacy.rounds_events].
      f_equal. f_equal.
      * lia.
      * lia.
      * rewrite <- !app_assoc. reflexivity.
    + reflexivity.
    + intros i Hi. cbn [Legacy.suspensions].
      destruct (Hu (S i) ltac:(lia)) as (C & Qa & Qb).
      replace (S (S (Legacy.suspensions st)) + 2 * i)%nat
        with (Legacy.suspensions st + 2 * S i)%nat by lia.
      auto.
Qed.

End LegacyPolling.

Lemma legacy_subscribe_started (env : Legacy.environment) (fuel : nat)
      (st : Legacy.state) :
  Legacy.notify_started env (Legacy.suspensions st) = true ->
  Legacy.concurrent env (Legacy.suspensions st) = [] ->
  Legacy.subscribe env fuel st =
  match Legacy.poll env fuel
          (Legacy.mkState (Legacy.stop_event st) (Legacy.now st)
             (S (Legacy.suspensions st))
             (Legacy.trace st
                ++ [(Legacy.now st, Legacy.StartNotify);
                    (Legacy.now st, Legacy.PrintSubscribed)])) with
  | None => None
  | Some st3 =>
      let stopped := Legacy.notify_stopped env (Legacy.suspensions st3) in
      let '(_, st4) := Legacy.bind (Legacy.log Legacy.StopNotify)
                         (fun _ => Legacy.suspend env 0) st3 in
      if stopped then Some (Legacy.log Legacy.PrintStopped st4)
      else Some (Legacy.Raise Legacy.ClientError, st4)
  end.
Proof.
  intros Hs Hq. unfold Legacy.subscribe.
  unfold Legacy.bind at 1, Legacy.log at 1, Legacy.suspend at 1.
  cbn [Legacy.suspensions Legacy.stop_event Legacy.now Legacy.trace].
  rewrite Hs, Hq.
  cbn [fold_left Legacy.log Legacy.suspensions Legacy.stop_event Legacy.now
       Legacy.trace].
  rewrite Z.add_0_r, <- app_assoc. reflexivity.
Qed.

(** X15.  The earlier [subscribe] looks at the event once a second.  If,
    after any number of undisturbed turns of its loop, another task calls
    [stop()] during the one-second sleep of a turn, the loop ends at the
    check that follows that sleep: [stop_notify] is called at the end of
    that second, and [subscribe] returns with the event set.  This holds
    for every bound on the number of checks that allows [rounds + 2]. *)
Theorem legacy_subscribe_stops_within_a_second (env : Legacy.environment)
        (rounds extra : nat) (offset : Z) (st : Legacy.state) :
  Legacy.stop_event st = false ->
  Legacy.notify_started env (Legacy.suspensions st) = true ->
  Legacy.concurrent env (Legacy.suspensions st) = [] ->
  Legacy.undisturbed env (S (Legacy.suspensions st)) rounds ->
  Legacy.connected env (S (Legacy.suspensions st) + 2 * rounds) = true ->
  Legacy.concurrent env (S (Legacy.suspensions st) + 2 * rounds) = [] ->
  Legacy.concurrent env (S (Legacy.suspensions st) + 2 * rounds + 1)
    = [(offset, OtherStop)] ->
  Legacy.notify_stopped env (S (Legacy.suspensions st) + 2 * rounds + 2)
    = true ->
  Legacy.concurrent env (S (Legacy.suspensions st) + 2 * rounds + 2) = [] ->
  Legacy.subscribe env (rounds + 2 + extra) st =
  Some (Legacy.Return tt,
        Legacy.mkState true (Legacy.now st + Z.of_nat rounds + 1)
          (S (Legacy.suspensions st) + 2 * rounds + 3)
          (Legacy.trace st
             ++ [(Legacy.now st, Legacy.StartNotify);
                 (Legacy.now st, Legacy.PrintSubscribed)]
             ++ Legacy.rounds_events (Legacy.now st) rounds
             ++ [(Legacy.now st + Z.of_nat rounds, Legacy.IsConnected true);
                 (Legacy.now st + Z.of_nat rounds, Legacy.Sleep 1);
                 (Legacy.now st + Z.of_nat rounds + offset,
                  Legacy.Concurrent OtherStop);
                 (Legacy.now st + Z.of_nat rounds + 1, Legacy.StopNotify);
                 (Legacy.now st + Z.of_nat rounds + 1, Legacy.PrintStopped)])).
Proof.
  intros Hf Hs Hq Hu Hc Hq1 Hstop Hn Hq2.
  rewrite (legacy_subscribe_started env _ st Hs Hq).
  replace (rounds + 2 + extra)%nat with (rounds + S (S extra))%nat by lia.
  rewrite legacy_poll_undisturbed; [|exact Hf|exact Hu].
  cbn [Legacy.stop_event Legacy.now Legacy.suspensions Legacy.trace].
  rewrite legacy_poll_turn; [|reflexivity|exact Hc|exact Hq1].
  cbn [Legacy.stop_event Legacy.now Legacy.suspensions Legacy.trace].
  rewrite (legacy_sleep_stopped env offset).
  2:{ cbn [Legacy.suspensions]. rewrite <- Hstop. f_equal. lia. }
  cbn [Legacy.poll Legacy.stop_event Legacy.now Legacy.suspensions
       Legacy.trace].
  replace (S (S (S (Legacy.suspensions st) + 2 * rounds)))
    with (S (Legacy.suspensions st) + 2 * rounds + 2)%nat by lia.
  rewrite Hn.
  unfold Legacy.bind, Legacy.log, Legacy.suspend.
  cbn [Legacy.suspensions Legacy.stop_event Legacy.now Legacy.trace].
  rewrite Hq2.
  cbn [fold_left Legacy.suspensions Legacy.stop_event Legacy.now Legacy.trace].
  f_equal. f_equal. f_equal.
  - lia.
  - lia.
  - rewrite <- !app_assoc. cbn [app]. rewrite !Z.add_0_r. reflexivity.
Qed.

Lemma legacy_subscribe_stops_within_a_second_witness :
  Legacy.subscribe Legacy.stopped_in_third_sleep (2 + 2 + 0) Legacy.init =
  Some (Legacy.Return tt,
        Legacy.mkState true (0 + Z.of_nat 2 + 1) (S 0 + 2 * 2 + 3)
          ([] ++ [(0, Legacy.StartNotify); (0, Legacy.PrintSubscribed)]
              ++ Legacy.rounds_events 0 2
              ++ [(0 + Z.of_nat 2, Legacy.IsConnected true);
                  (0 + Z.of_nat 2, Legacy.Sleep 1);
                  (0 + Z.of_nat 2 + 0, Legacy.Concurrent OtherStop);
                  (0 + Z.of_nat 2 + 1, Legacy.StopNotify);
                  (0 + Z.of_nat 2 + 1, Legacy.PrintStopped)])).
Proof.
  apply (legacy_subscribe_stops_within_a_second
           Legacy.stopped_in_third_sleep 2 0 0 Legacy.init);
    try reflexivity.
  intros i Hi.
  destruct i as [|[|i]]; [repeat split; reflexivity..|lia].
Defined.

(** X16.  If, after any number of undisturbed turns, the client is found
    disconnected, the loop of the earlier [subscribe] ends at once
    without a further sleep, [stop_notify] is still called, and
    [subscribe] returns with the event as it was (unset). *)
Theorem legacy_subscribe_ends_when_disconnected (env : Legacy.environment)
        (rounds extra : nat) (st : Legacy.state) :
  Legacy.stop_event st = false ->
  Legacy.notify_started env (Legacy.suspensions st) = true ->
  Legacy.concurrent env (Legacy.suspensions st) = [] ->
  Legacy.undisturbed env (S (Legacy.suspensions st)) rounds ->
  Legacy.connected env (S (Legacy.suspensions st) + 2 * rounds) = false ->
  Legacy.concurrent env (S (Legacy.suspensions st) + 2 * rounds) = [] ->
  Legacy.notify_stopped env (S (Legacy.suspensions st) + 2 * rounds + 1)
    = true ->
  Legacy.concurrent env (S (Legacy.suspensions st) + 2 * rounds + 1) = [] ->
  Legacy.subscribe env (rounds + 1 + extra) st =
  Some (Legacy.Return tt,
        Legacy.mkState false (Legacy.now st + Z.of_nat rounds)
          (S (Legacy.suspensions st) + 2 * rounds + 2)
          (Legacy.trace st
             ++ [(Legacy.now st, Legacy.StartNotify);
                 (Legacy.now st, Legacy.PrintSubscribed)]
             ++ Legacy.rounds_events (Legacy.now st) rounds
             ++ [(Legacy.now st + Z.of_nat rounds, Legacy.IsConnected false);
                 (Legacy.now st + Z.of_nat rounds, Legacy.StopNotify);
                 (Legacy.now st + Z.of_nat rounds, Legacy.PrintStopped)])).
Proof.
  intros Hf Hs Hq Hu Hc Hq1 Hn Hq2.
  rewrite (legacy_subscribe_started env _ st Hs Hq).
  replace (rounds + 1 + extra)%nat with (rounds + S extra)%nat by lia.
  rewrite legacy_poll_undisturbed; [|exact Hf|exact Hu].
  cbn [Legacy.stop_event Legacy.now Legacy.suspensions Legacy.trace
       Legacy.poll].
  unfold Legacy.is_connected, Legacy.bind, Legacy.log, Legacy.ret,
    Legacy.suspend.
  cbn [Legacy.suspensions Legacy.stop_event Legacy.now Legacy.trace].
  rewrite Hc, Hq1.
  cbn [fold_left Legacy.suspensions Legacy.stop_event Legacy.now Legacy.trace].
  replace (S (S (Legacy.suspensions st) + 2 * rounds))
    with (S (Legacy.suspensions st) + 2 * rounds + 1)%nat by lia.
  rewrite Hn, Hq2.
  cbn [fold_left Legacy.suspensions Legacy.stop_event Legacy.now Legacy.trace].
  f_equal. f_equal. f_equal.
  - lia.
  - lia.
  - rewrite <- !app_assoc. cbn [app]. rewrite !Z.add_0_r. reflexivity.
Qed.

Lemma legacy_subscribe_ends_when_disconnected_witness :
  Legacy.subscribe Legacy.lost_in_third_turn (2 + 1 + 0) Legacy.init =
  Some (Legacy.Return tt,
        Legacy.mkState false (0 + Z.of_nat 2) (S 0 + 2 * 2 + 2)
          ([] ++ [(0, Legacy.StartNotify); (0, Legacy.PrintSubscribed)]
              ++ Legacy.rounds_events 0 2
              ++ [(0 + Z.of_nat 2, Legacy.IsConnected false);
                  (0 + Z.of_nat 2, Legacy.StopNotify);
                  (0 + Z.of_nat 2, Legacy.PrintStopped)])).
Proof.
  apply (legacy_subscribe_ends_when_disconnected
           Legacy.lost_in_third_turn 2 0 Legacy.init);
    try reflexivity.
  intros i Hi.
  destruct i as [|[|i]]; [repeat split; reflexivity..|lia].
Defined.

(* ================================================================== *)
(** ** The earlier class: scaling a float speed *)

Lemma legacy_scaling_checked :
  forall_from 0 (Z.to_nat 65536) Legacy.scaled_within_one = true.
Proof. vm_compute. reflexivity. Qed.

(** The loss occurs: 0.29 is scaled to 28, not 29. *)
Lemma legacy_scaling_can_lose_one :
  Legacy.target_speed_of (truediv 29 100) = Legacy.Return 28.
Proof. vm_compute. reflexivity. Qed.

(** X17.  The earlier [set_speed] takes a float.  Given the speed the
    handler decodes from a raw field [n] (the float [n / 100]), it never
    raises, and the two bytes it builds hold [n] or [n - 1]: the float
    product [speed * 100] can fall just below [n], and [int] truncates. *)
Theorem legacy_set_speed_may_lose_a_hundredth (n : Z) :
  0 <= n <= 65535 ->
  exists (t : Z) (speed_bytes : list byte),
    Legacy.target_speed_of (truediv n 100) = Legacy.Return t /\
    (t = n \/ t = n - 1) /\
    Legacy.set_speed_command (truediv n 100)
      = Legacy.Return ([SPEED_OP_CODE] ++ speed_bytes) /\
    length speed_bytes = 2%nat /\
    from_bytes speed_bytes = t.
Proof.
  intros Hn.
  pose proof (forall_from_spec _ _ 0 n legacy_scaling_checked) as H.
  rewrite Z2Nat.id in H by lia. specialize (H ltac:(lia)).
  unfold Legacy.scaled_within_one in H. unfold Legacy.set_speed_command.
  destruct (Legacy.target_speed_of (truediv n 100)) as [t|e]; [|discriminate].
  apply andb_true_iff in H as [H0 H1]. apply Z.leb_le in H0.
  assert (Ht : t = n \/ t = n - 1).
  { apply orb_true_iff in H1 as [H1|H1]; apply Z.eqb_eq in H1; auto. }
  assert (Hr : 0 <= t < 256 ^ Z.of_nat 2).
  { change (256 ^ Z.of_nat 2) with 65536. lia. }
  exists t, (le_digits 2 t).
  rewrite (to_bytes_in_range t 2 Hr).
  repeat split; try reflexivity; [exact Ht|].
  apply from_bytes_le_digits. exact Hr.
Qed.

Lemma legacy_set_speed_may_lose_a_hundredth_witness :
  exists (t : Z) (speed_bytes : list byte),
    Legacy.target_speed_of (truediv 29 100) = Legacy.Return t /\
    (t = 29 \/ t = 29 - 1) /\
    Legacy.set_speed_command (truediv 29 100)
      = Legacy.Return ([SPEED_OP_CODE] ++ speed_bytes) /\
    length speed_bytes = 2%nat /\
    from_bytes speed_bytes = t.
Proof. apply (legacy_set_speed_may_lose_a_hundredth 29); lia. Defined.
